(** * Webhook tester: URL validation, the probe handler and the client history

    A shallow embedding of
      - [src/app/api/webhook-tester/route.ts]: [isInternalUrl] and the
        [POST] handler;
      - the client component: [isValidUrl], [testWebhook] and the history
        list it maintains.

    Strings are [string], the bytes of the UTF-8 encoding of the
    JavaScript string; JavaScript integers (status codes, [Date.now()]
    readings, latencies) are [Z].  The platform's [URL] constructor is not
    code of the repository: the validators take it as a parameter
    [new_URL], and every general theorem holds for any such parser. *)

From Stdlib Require Import Bool List ZArith QArith Qround Lia Lqa.
From Stdlib Require Import Ascii String DecimalString.
Import ListNotations.

Local Open Scope string_scope.
Local Open Scope Z_scope.

Set Implicit Arguments.

(* ================================================================== *)
(** ** JavaScript strings *)

Module Js.

(** [c.toLowerCase()] on one ASCII character; the strings lower-cased
    here are hostnames of parsed URLs, which are ASCII. *)
Definition lower_char (c : ascii) : ascii :=
  let n := N_of_ascii c in
  if ((65 <=? n) && (n <=? 90))%N then ascii_of_N (n + 32) else c.

(** [s.toLowerCase()]. *)
Fixpoint toLowerCase (s : string) : string :=
  match s with
  | EmptyString => EmptyString
  | String c t => String (lower_char c) (toLowerCase t)
  end.

(** [s.startsWith(p)]. *)
Definition startsWith (s p : string) : bool := String.prefix p s.

(** [s.includes(needle)]: [needle] occurs somewhere in [s]. *)
Fixpoint includes (s needle : string) : bool :=
  String.prefix needle s ||
  match s with
  | EmptyString => false
  | String _ t => includes t needle
  end.

(** [list.includes(x)] on an array of strings. *)
Definition array_includes (l : list string) (x : string) : bool :=
  existsb (String.eqb x) l.

(** White space and line terminators, which [trim] strips.  A string is
    carried as the bytes of its UTF-8 encoding: the six ASCII ones take one
    byte; U+00A0 takes the two bytes C2 A0; U+1680, U+2000 to U+200A,
    U+2028, U+2029, U+202F, U+205F, U+3000 and U+FEFF take three. *)
Definition is_space (c : ascii) : bool :=
  let n := N_of_ascii c in
  ((n =? 32) || ((9 <=? n) && (n <=? 13)))%N.

Definition is_space2 (a b : ascii) : bool :=
  ((N_of_ascii a =? 194) && (N_of_ascii b =? 160))%N.

Definition is_space3 (a b c : ascii) : bool :=
  let '(x, y, z) := (N_of_ascii a, N_of_ascii b, N_of_ascii c) in
  (((x =? 225) && (y =? 154) && (z =? 128)) ||
   ((x =? 226) && (y =? 128) &&
    (((128 <=? z) && (z <=? 138)) || (z =? 168) || (z =? 169) ||
     (z =? 175))) ||
   ((x =? 226) && (y =? 129) && (z =? 159)) ||
   ((x =? 227) && (y =? 128) && (z =? 128)) ||
   ((x =? 239) && (y =? 187) && (z =? 191)))%N.

(** [s.trimStart()]. *)
Fixpoint trimStart (s : string) : string :=
  match s with
  | EmptyString => EmptyString
  | String a t =>
      if is_space a then trimStart t
      else
        match t with
        | String b t' =>
            if is_space2 a b then trimStart t'
            else
              match t' with
              | String c t'' => if is_space3 a b c then trimStart t'' else s
              | EmptyString => s
              end
        | EmptyString => s
        end
  end.

(** The string consists of white space only. *)
Fixpoint is_blank (s : string) : bool :=
  match s with
  | EmptyString => true
  | String a t =>
      if is_space a then is_blank t
      else
        match t with
        | String b t' =>
            if is_space2 a b then is_blank t'
            else
              match t' with
              | String c t'' => is_space3 a b c && is_blank t''
              | EmptyString => false
              end
        | EmptyString => false
        end
  end.

(** [s.trimEnd()]: the string up to where only white space follows. *)
Fixpoint trimEnd (s : string) : string :=
  if is_blank s then EmptyString
  else
    match s with
    | EmptyString => EmptyString
    | String a t => String a (trimEnd t)
    end.

(** [s.trim()]. *)
Definition trim (s : string) : string := trimEnd (trimStart s).

(** Truthiness of a string: only the empty string is falsy. *)
Definition truthy_string (s : string) : bool :=
  match s with EmptyString => false | _ => true end.

(** [n.toString()] and the rendering of a number inside a template
    literal, for an integer. *)
Definition number_toString (n : Z) : string :=
  NilZero.string_of_int (Z.to_int n).

End Js.

(* ================================================================== *)
(** ** Regular expressions

    The fragment the two validators use: literals, character ranges,
    concatenation and alternation, always anchored at the start of the
    subject ([^] in every alternative) and never at its end. *)

Module Regex.

Inductive t : Type :=
| Lit (s : string)           (* a run of literal characters; [\.] is ["."] *)
| Range (lo hi : ascii)      (* [[lo-hi]] *)
| Cat (r1 r2 : t)
| Alt (r1 r2 : t).

(** What is left of the subject after the literal [p] is read off its
    front. *)
Fixpoint strip (p s : string) : option string :=
  match p, s with
  | EmptyString, _ => Some s
  | String a p', String b s' =>
      if Ascii.eqb a b then strip p' s' else None
  | String _ _, EmptyString => None
  end.

(** All the ways [r] can match at the front of [s], each given by the
    rest of the subject. *)
Fixpoint residues (r : t) (s : string) : list string :=
  match r with
  | Lit p => match strip p s with Some s' => [s'] | None => [] end
  | Range lo hi =>
      match s with
      | String c s' =>
          if ((N_of_ascii lo <=? N_of_ascii c) &&
              (N_of_ascii c <=? N_of_ascii hi))%N
          then [s'] else []
      | EmptyString => []
      end
  | Cat r1 r2 => flat_map (residues r2) (residues r1 s)
  | Alt r1 r2 => residues r1 s ++ residues r2 s
  end.

(** [/^r/.test(s)]; also the truthiness of [s.match(/^r/)]. *)
Definition test (r : t) (s : string) : bool :=
  match residues r s with
  | [] => false
  | _ :: _ => true
  end.

End Regex.

(* ================================================================== *)
(** ** Parsed URLs *)

(** The two properties of a [URL] object that the validators read. *)
Record URL : Type := mkURL {
  protocol : string;   (* scheme with its colon, for instance ["https:"] *)
  hostname : string
}.

(** A parser for a fragment of the URL syntax, to run the validators and
    the handler on concrete inputs: [scheme://host[:port][/...]] with one
    of the schemes http, https, ftp, ws and wss, a host made of letters,
    digits, [-], [_] and dots that is either a domain without [xn--]
    labels or a dotted quad in canonical decimal form, and a port of at
    most five digits.  On such an input it yields the protocol and the
    hostname that the platform's [URL] has; on any other input it yields
    [None]. *)
Module BasicURL.

Fixpoint split_at (stop : ascii -> bool) (s : string) : string * string :=
  match s with
  | EmptyString => (EmptyString, EmptyString)
  | String c t =>
      if stop c then (EmptyString, s)
      else let '(a, b) := split_at stop t in (String c a, b)
  end.

Fixpoint forallb_string (p : ascii -> bool) (s : string) : bool :=
  match s with
  | EmptyString => true
  | String c t => p c && forallb_string p t
  end.

Definition is_alpha (c : ascii) : bool :=
  let n := N_of_ascii (Js.lower_char c) in ((97 <=? n) && (n <=? 122))%N.

Definition is_digit (c : ascii) : bool :=
  let n := N_of_ascii c in ((48 <=? n) && (n <=? 57))%N.

Definition is_hex_digit (c : ascii) : bool :=
  let n := N_of_ascii (Js.lower_char c) in
  is_digit c || ((97 <=? n) && (n <=? 102))%N.

Definition is_host_char (c : ascii) : bool :=
  is_alpha c || is_digit c ||
  Ascii.eqb c "-" || Ascii.eqb c "." || Ascii.eqb c "_".

(** The labels of a host, split at the dots. *)
Fixpoint labels (s : string) : list string :=
  match s with
  | EmptyString => [EmptyString]
  | String c t =>
      if Ascii.eqb c "." then EmptyString :: labels t
      else match labels t with
           | l :: ls => String c l :: ls
           | [] => [String c EmptyString]
           end
  end.

Definition is_digits (l : string) : bool :=
  Js.truthy_string l && forallb_string is_digit l.

Fixpoint decimal_value (acc : N) (l : string) : N :=
  match l with
  | EmptyString => acc
  | String c t => decimal_value (10 * acc + (N_of_ascii c - 48)) t
  end.

(** A label that the host parser reads as a number: digits, or [0x]
    followed by hexadecimal digits. *)
Definition is_number (l : string) : bool :=
  is_digits l ||
  match Regex.strip "0x" (Js.toLowerCase l) with
  | Some rest => forallb_string is_hex_digit rest
  | None => false
  end.

(** The last label, a single trailing dot set aside. *)
Definition last_label (ls : list string) : string :=
  match rev ls with
  | EmptyString :: l :: _ => l
  | l :: _ => l
  | [] => EmptyString
  end.

Definition is_canonical_octet (l : string) : bool :=
  is_digits l && (String.length l <=? 3)%nat &&
  (String.eqb l "0" || negb (String.prefix "0" l)) &&
  (decimal_value 0 l <=? 255)%N.

Definition is_canonical_quad (ls : list string) : bool :=
  (List.length ls =? 4)%nat && forallb is_canonical_octet ls.

Definition is_plain_host (host : string) : bool :=
  let ls := labels host in
  Js.truthy_string host && forallb_string is_host_char host &&
  negb (existsb (fun l => String.prefix "xn--" (Js.toLowerCase l)) ls) &&
  (negb (is_number (last_label ls)) || is_canonical_quad ls).

Definition is_port (port : string) : bool :=
  match port with
  | EmptyString => true
  | String c digits =>
      Ascii.eqb c ":" && forallb_string is_digit digits &&
      (String.length digits <=? 5)%nat &&
      (decimal_value 0 digits <=? 65535)%N
  end.

Definition parse (input : string) : option URL :=
  let '(scheme, rest) := split_at (Ascii.eqb ":") input in
  let scheme := Js.toLowerCase scheme in
  match Regex.strip "://" rest with
  | Some after =>
      if Js.array_includes ["http"; "https"; "ftp"; "ws"; "wss"] scheme then
        let '(authority, _) :=
          split_at (fun c => Ascii.eqb c "/" || Ascii.eqb c "?" ||
                             Ascii.eqb c "#") after in
        let '(host, port) := split_at (Ascii.eqb ":") authority in
        if is_plain_host host && is_port port
        then Some {| protocol := scheme ++ ":";
                     hostname := Js.toLowerCase host |}
        else None
      else None
  | None => None
  end.

End BasicURL.

(** [BasicURL.parse], and two inputs whose host is an IPv6 literal: the
    hostname that the platform's [URL] has for such a host is the address
    in its brackets. *)
Module SampleURL.

Definition parse (input : string) : option URL :=
  if String.eqb input "http://[::1]/" then
    Some {| protocol := "http:"; hostname := "[::1]" |}
  else if String.eqb input "http://[fc00::1]/" then
    Some {| protocol := "http:"; hostname := "[fc00::1]" |}
  else BasicURL.parse input.

End SampleURL.

(* ================================================================== *)
(** ** The server: [src/app/api/webhook-tester/route.ts] *)

Module Route.

(** *** [isInternalUrl] *)

Section Validators.

(** [new URL(s)]: [None] when the constructor throws. *)
Variable new_URL : string -> option URL.

Definition blockedHosts : list string :=
  [ "localhost"; "127.0.0.1"; "0.0.0.0"; "::1"; "0:0:0:0:0:0:0:1" ].

Import Regex.

(** [/^172\.(1[6-9]|2[0-9]|3[0-1])\./] *)
Definition re_172 : Regex.t :=
  Cat (Lit "172.")
    (Cat (Alt (Cat (Lit "1") (Range "6" "9"))
           (Alt (Cat (Lit "2") (Range "0" "9"))
                (Cat (Lit "3") (Range "0" "1"))))
         (Lit ".")).

Definition privateIPPatterns : list Regex.t :=
  [ Lit "10.";
    re_172;
    Lit "192.168.";
    Lit "169.254.";
    Lit "fc00:";
    Lit "fd00:" ].

Definition isInternalUrl (urlString : string) : bool :=
  match new_URL urlString with
  | Some url =>
      let hostname := Js.toLowerCase (hostname url) in
      if Js.array_includes blockedHosts hostname then true
      else if existsb (fun pattern => Regex.test pattern hostname)
                      privateIPPatterns
      then true
      else false
  | None => true
  end.

End Validators.

(* ================================================================== *)
(** ** Values and responses of the handler *)

(** A parsed JSON document.  Numbers are carried as integers: the handler
    looks only at the type of the [url] property and at whether it is
    falsy. *)
#[warnings="-register-all"]
Inductive Json : Type :=
| JNull
| JBool (b : bool)
| JNum (n : Z)
| JStr (s : string)
| JArr (items : list Json)
| JObj (fields : list (string * Json)).

(** A value that can be thrown: an [Error] instance with its [name] and
    [message], or anything else. *)
Inductive Thrown : Type :=
| ThrownError (name message : string)
| ThrownOther.

(** The [TestResponse] interface: every field optional but [success],
    which the first rejection nevertheless leaves out. *)
Record TestResponse : Type := mkTestResponse {
  success : option bool;
  statusCode : option Z;
  latency : option Z;
  error : option string;
  message : option string
}.

(** What [NextResponse.json(body, { status })] builds. *)
Record HttpResponse : Type := mkHttpResponse {
  status : Z;
  body : TestResponse
}.

Definition NextResponse_json (b : TestResponse) (st : Z) : HttpResponse :=
  {| status := st; body := b |}.

Definition failure (msg : string) : TestResponse :=
  {| success := Some false; statusCode := None; latency := None;
     error := Some msg; message := None |}.

(** A request: [request.json()] either rejects or yields a document. *)
Record NextRequest : Type := mkRequest {
  json : option Json
}.

(** Property lookup on a parsed object: of duplicate keys the last one
    wins. *)
Fixpoint lookup_last (k : string) (fields : list (string * Json))
  : option Json :=
  match fields with
  | [] => None
  | (k', v) :: rest =>
      match lookup_last k rest with
      | Some v' => Some v'
      | None => if String.eqb k k' then Some v else None
      end
  end.

(** A JavaScript value read off a document: [None] is [undefined]. *)
Definition JsValue : Type := option Json.

Definition truthy (v : JsValue) : bool :=
  match v with
  | None => false
  | Some JNull => false
  | Some (JBool b) => b
  | Some (JNum n) => negb (n =? 0)
  | Some (JStr s) => Js.truthy_string s
  | Some (JArr _) => true
  | Some (JObj _) => true
  end.

Definition typeof (v : JsValue) : string :=
  match v with
  | None => "undefined"
  | Some JNull => "object"
  | Some (JBool _) => "boolean"
  | Some (JNum _) => "number"
  | Some (JStr _) => "string"
  | Some (JArr _) => "object"
  | Some (JObj _) => "object"
  end.

(** The string behind a value whose [typeof] is ["string"]. *)
Definition as_string (v : JsValue) : string :=
  match v with
  | Some (JStr s) => s
  | _ => ""
  end.

(* ================================================================== *)
(** ** The platform the handler runs on *)

(** How a call of [fetch] ends, as the platform and the target make it:
    it settles some milliseconds after the call, or it never settles.  It
    resolves with the status of the final response (the call sets no
    [redirect] option, so the platform follows redirects on its own
    within the call), or it rejects; a rejection covers one raised before
    anything is sent, as for a URL with credentials. *)
Inductive FetchResult : Type :=
| Resolves (response_status : Z)
| Rejects (e : Thrown).

Inductive Target : Type :=
| Settles (elapsed : Z) (r : FetchResult)
| Hangs.

(** The body of the probe. *)
Record Payload : Type := mkPayload {
  event : string;
  timestamp : Z;        (* the time value whose ISO rendering is sent *)
  source : string;
  test_id : string
}.

Record OutboundRequest : Type := mkOutbound {
  out_url : string;
  out_method : string;
  out_headers : list (string * string);
  out_body : Payload
}.

(** A pending timer whose callback aborts a controller. *)
Record Timer : Type := mkTimer {
  timer_id : nat;
  timer_due : Z;
  timer_aborts : nat
}.

(** The effects of a handler; [EvFetch] is a call of [fetch]. *)
Inductive Event : Type :=
| EvFetch (req : OutboundRequest)
| EvSetTimeout (id : nat) (delay : Z)
| EvTimerFired (id : nat)
| EvClearTimeout (id : nat)
| EvConsoleError.

Record World : Type := mkWorld {
  clock : Z;                     (* what [Date.now()] reads *)
  random_token : string;         (* [Math.random().toString(36).substring(7)] *)
  network : string -> Target;
  timers : list Timer;           (* timers set and neither fired nor cleared *)
  aborted : list nat;            (* controllers whose signal is aborted *)
  next_id : nat;
  trace : list Event             (* effects so far, oldest first *)
}.

(** The world one invocation of a handler starts in. *)
Definition initial (now : Z) (token : string) (net : string -> Target)
  : World :=
  {| clock := now; random_token := token; network := net;
     timers := []; aborted := []; next_id := 0%nat; trace := [] |}.

Definition set_clock (t : Z) (w : World) : World :=
  {| clock := t; random_token := random_token w; network := network w;
     timers := timers w; aborted := aborted w; next_id := next_id w;
     trace := trace w |}.

Definition set_timers (ts : list Timer) (w : World) : World :=
  {| clock := clock w; random_token := random_token w; network := network w;
     timers := ts; aborted := aborted w; next_id := next_id w;
     trace := trace w |}.

Definition set_aborted (cs : list nat) (w : World) : World :=
  {| clock := clock w; random_token := random_token w; network := network w;
     timers := timers w; aborted := cs; next_id := next_id w;
     trace := trace w |}.

Definition bump_id (w : World) : World :=
  {| clock := clock w; random_token := random_token w; network := network w;
     timers := timers w; aborted := aborted w; next_id := S (next_id w);
     trace := trace w |}.

Definition log (e : Event) (w : World) : World :=
  {| clock := clock w; random_token := random_token w; network := network w;
     timers := timers w; aborted := aborted w; next_id := next_id w;
     trace := trace w ++ [e] |}.

(** An asynchronous computation either returns, throws, or is never
    resumed. *)
Inductive Outcome (A : Type) : Type :=
| Returned (a : A)
| Threw (e : Thrown)
| Pending.

Arguments Threw {A} e.
Arguments Pending {A}.

Definition M (A : Type) : Type := World -> Outcome A * World.

Definition ret {A} (a : A) : M A := fun w => (Returned a, w).

Definition throw {A} (e : Thrown) : M A := fun w => (Threw e, w).

Definition bind {A B} (m : M A) (k : A -> M B) : M B :=
  fun w =>
    match m w with
    | (Returned a, w') => k a w'
    | (Threw e, w') => (Threw e, w')
    | (Pending, w') => (Pending, w')
    end.

Definition try_catch {A} (m : M A) (handler : Thrown -> M A) : M A :=
  fun w =>
    match m w with
    | (Threw e, w') => handler e w'
    | r => r
    end.

Notation "x <- m ;; k" := (bind m (fun x => k))
  (at level 61, m at next level, right associativity).
Notation "m ;;; k" := (bind m (fun _ => k))
  (at level 61, right associativity).

Definition AbortError : Thrown :=
  ThrownError "AbortError" "This operation was aborted".

Definition Date_now : M Z := fun w => (Returned (clock w), w).

Definition Math_random_token : M string :=
  fun w => (Returned (random_token w), w).

Definition console_error : M unit :=
  fun w => (Returned tt, log EvConsoleError w).

(** [new AbortController()]. *)
Definition new_AbortController : M nat :=
  fun w => (Returned (next_id w), bump_id w).

(** [setTimeout(() => controller.abort(), delay)]. *)
Definition setTimeout_abort (controller : nat) (delay : Z) : M nat :=
  fun w =>
    let id := next_id w in
    let t := {| timer_id := id; timer_due := clock w + delay;
                timer_aborts := controller |} in
    (Returned id,
     log (EvSetTimeout id delay) (bump_id (set_timers (timers w ++ [t]) w))).

Definition drop_timer (id : nat) (ts : list Timer) : list Timer :=
  filter (fun t => negb (Nat.eqb (timer_id t) id)) ts.

(** [clearTimeout(id)]: harmless on a timer that has fired. *)
Definition clearTimeout (id : nat) : M unit :=
  fun w =>
    (Returned tt, log (EvClearTimeout id) (set_timers (drop_timer id (timers w)) w)).

(** The exchange settles: time passes and [fetch] resolves or rejects. *)
Definition settle (elapsed : Z) (r : FetchResult) (w : World)
  : Outcome Z * World :=
  let w' := set_clock (clock w + elapsed) w in
  match r with
  | Resolves st => (Returned st, w')
  | Rejects e => (Threw e, w')
  end.

(** The timer [t] comes due first: its callback aborts the controller and
    [fetch] rejects with an [AbortError]. *)
Definition fire (t : Timer) (w : World) : Outcome Z * World :=
  (Threw AbortError,
   log (EvTimerFired (timer_id t))
     (set_aborted (timer_aborts t :: aborted w)
        (set_timers (drop_timer (timer_id t) (timers w))
           (set_clock (timer_due t) w)))).

(** [await fetch(url, { ..., signal })], the response reduced to its
    status.  On a signal that is already aborted [fetch] rejects at once.
    Otherwise the call is recorded, and its settlement races the timer
    that aborts [signal]: a timer due at the instant of the settlement
    runs first, as the timers of an iteration of the event loop run
    before its input and output callbacks. *)
Definition fetch (req : OutboundRequest) (signal : nat) : M Z :=
  fun w =>
    if existsb (Nat.eqb signal) (aborted w) then (Threw AbortError, w)
    else
      let w := log (EvFetch req) w in
      match network w (out_url req),
            find (fun t => Nat.eqb (timer_aborts t) signal) (timers w) with
      | Settles elapsed r, Some t =>
          if clock w + elapsed <? timer_due t then settle elapsed r w
          else fire t w
      | Settles elapsed r, None => settle elapsed r w
      | Hangs, Some t => fire t w
      | Hangs, None => (Pending, w)
      end.

(** [request.json()]. *)
Definition request_json (request : NextRequest) : M Json :=
  match json request with
  | Some doc => ret doc
  | None => throw (ThrownError "SyntaxError" "Unexpected end of JSON input")
  end.

(** The [url] property that [const { url } = body] reads: [None] when the
    document is [null], which has no properties to read. *)
Definition property_url (doc : Json) : option JsValue :=
  match doc with
  | JNull => None
  | JObj fields => Some (lookup_last "url" fields)
  | _ => Some None
  end.

(** [const { url } = body]. *)
Definition destructure_url (doc : Json) : M JsValue :=
  match property_url doc with
  | Some v => ret v
  | None =>
      throw (ThrownError "TypeError"
               "Cannot destructure property 'url' of 'body' as it is null.")
  end.

(* ================================================================== *)
(** ** The [POST] handler ([route.ts]) *)

Section Handler.

Variable new_URL : string -> option URL.

Definition POST (request : NextRequest) : M HttpResponse :=
  try_catch
    (doc <- request_json request ;;
     url <- destructure_url doc ;;
     if negb (truthy url) || negb (String.eqb (typeof url) "string") then
       ret (NextResponse_json
              {| success := None; statusCode := None; latency := None;
                 error := Some "URL is required and must be a string";
                 message := None |} 400)
     else
       let url := as_string url in
       match new_URL url with
       | None =>
           ret (NextResponse_json (failure "Invalid URL format") 400)
       | Some targetUrl =>
           if negb (Js.array_includes ["http:"; "https:"]
                      (protocol targetUrl)) then
             ret (NextResponse_json
                    (failure "Only HTTP and HTTPS protocols are allowed")
                    400)
           else if isInternalUrl new_URL url then
             ret (NextResponse_json
                    (failure "Access to internal/private URLs is not allowed")
                    403)
           else
             now <- Date_now ;;
             token <- Math_random_token ;;
             let payload :=
               {| event := "test_ping"; timestamp := now;
                  source := "webhook_tester"; test_id := token |} in
             startTime <- Date_now ;;
             controller <- new_AbortController ;;
             timeout <- setTimeout_abort controller 10000 ;;
             try_catch
               (response_status <-
                  fetch {| out_url := url;
                           out_method := "POST";
                           out_headers :=
                             [ ("Content-Type", "application/json");
                               ("User-Agent", "WebhookTester/1.0") ];
                           out_body := payload |}
                        controller ;;
                endTime <- Date_now ;;
                let latency := endTime - startTime in
                clearTimeout timeout ;;;
                ret (NextResponse_json
                       {| success := Some true;
                          statusCode := Some response_status;
                          latency := Some latency;
                          error := None;
                          message :=
                            Some ("Webhook responded with " ++
                                  Js.number_toString response_status) |}
                       200))
               (fun fetchError =>
                  clearTimeout timeout ;;;
                  match fetchError with
                  | ThrownError name msg =>
                      if String.eqb name "AbortError" then
                        ret (NextResponse_json
                               (failure "Request timeout (>10s)") 200)
                      else if Js.includes msg "fetch failed" then
                        ret (NextResponse_json
                               (failure
                                  "Network error: Could not reach the URL")
                               200)
                      else
                        ret (NextResponse_json
                               (failure ("Request failed: " ++ msg)) 200)
                  | ThrownOther =>
                      ret (NextResponse_json
                             (failure "Unknown error occurred") 200)
                  end)
       end)
    (fun _ =>
       console_error ;;;
       ret (NextResponse_json (failure "Internal server error") 500)).

End Handler.

End Route.

(* ================================================================== *)
(** ** The client component *)

Module Page.

(** The [WebhookTest] interface: one entry of the history. *)
Module Entry.

Record WebhookTest : Type := mkWebhookTest {
  id : string;
  url : string;
  statusCode : option Z;      (* [None] is [null] *)
  latency : option Z;
  timestamp : Z;              (* the time value whose ISO rendering is kept *)
  error : option string       (* [None] is [undefined] *)
}.

End Entry.

Import Entry.

(** The state of the component: its four [useState] variables. *)
Record State : Type := mkState {
  url : string;
  isLoading : bool;
  tests : list WebhookTest;
  error : string
}.

Definition setUrl (u : string) (s : State) : State :=
  {| url := u; isLoading := isLoading s; tests := tests s; error := error s |}.

Definition setIsLoading (b : bool) (s : State) : State :=
  {| url := url s; isLoading := b; tests := tests s; error := error s |}.

(** [setTests(f)] with an updater function. *)
Definition setTests (f : list WebhookTest -> list WebhookTest) (s : State)
  : State :=
  {| url := url s; isLoading := isLoading s; tests := f (tests s);
     error := error s |}.

Definition setError (e : string) (s : State) : State :=
  {| url := url s; isLoading := isLoading s; tests := tests s; error := e |}.

(** [a.slice(0, n)]. *)
Definition slice0 {A} (n : nat) (a : list A) : list A := firstn n a.

(** [Math.round(x)]: the nearest integer, halves towards plus infinity;
    the readings of [performance.now()] are taken as rationals. *)
Definition Math_round (x : Q) : Z := Qfloor (x + (1 # 2)).

(** [x || null] and [x || y] on an optional number: [undefined] and [0]
    are falsy. *)
Definition or_null (x : option Z) : option Z :=
  match x with
  | Some n => if n =? 0 then None else Some n
  | None => None
  end.

Definition or_else (x : option Z) (y : Z) : Z :=
  match x with
  | Some n => if n =? 0 then y else n
  | None => y
  end.

(** What the round trip to [/api/webhook-tester] comes to: the parsed body
    of the reply, or a throw of [fetch] or of [response.json()]. *)
Inductive RoundTrip : Type :=
| Replied (data : Route.TestResponse)
| Failed (err : Route.Thrown).

(** What one call of [testWebhook] reads from its surroundings. *)
Record Env : Type := mkEnv {
  perf_start : Q;             (* [performance.now()] before the request *)
  perf_end : Q;               (* [performance.now()] after it *)
  now_id : Z;                 (* [Date.now()] *)
  now_stamp : Z;              (* [new Date()] *)
  round_trip : RoundTrip
}.

Section Component.

Variable new_URL : string -> option URL.

Definition blockedHosts : list string :=
  [ "localhost"; "127.0.0.1"; "0.0.0.0"; "::1" ].

Import Regex.

(** [/^10\.|^172\.(1[6-9]|2[0-9]|3[0-1])\.|^192\.168\./] *)
Definition private_re : Regex.t :=
  Alt (Lit "10.")
    (Alt (Cat (Lit "172.")
            (Cat (Alt (Cat (Lit "1") (Range "6" "9"))
                    (Alt (Cat (Lit "2") (Range "0" "9"))
                         (Cat (Lit "3") (Range "0" "1"))))
                 (Lit ".")))
         (Lit "192.168.")).

Definition isValidUrl (urlString : string) : bool :=
  match new_URL urlString with
  | Some urlObj =>
      let hostname := Js.toLowerCase (hostname urlObj) in
      if existsb
           (fun blocked =>
              String.eqb hostname blocked ||
              Js.startsWith hostname (blocked ++ "."))
           blockedHosts
      then false
      else if Regex.test private_re hostname then false
      else String.eqb (protocol urlObj) "http:" ||
           String.eqb (protocol urlObj) "https:"
  | None => false
  end.

Definition testWebhook (env : Env) (s : State) : State :=
  let s := setError "" s in
  if negb (Js.truthy_string (Js.trim (url s))) then
    setError "Please enter a URL" s
  else if negb (isValidUrl (url s)) then
    setError
      "Invalid URL or blocked for security reasons (no localhost/private IPs)"
      s
  else
    let s := setIsLoading true s in
    let s :=
      match round_trip env with
      | Replied data =>
          let startTime := perf_start env in
          let endTime := perf_end env in
          let newTest :=
            {| id := Js.number_toString (now_id env);
               Entry.url := url s;
               statusCode := or_null (Route.statusCode data);
               latency :=
                 Some (or_else (Route.latency data)
                         (Math_round (endTime - startTime)));
               timestamp := now_stamp env;
               Entry.error := Route.error data |} in
          let s := setTests (fun prev => slice0 20 (newTest :: prev)) s in
          setUrl "" s
      | Failed err =>
          let newTest :=
            {| id := Js.number_toString (now_id env);
               Entry.url := url s;
               statusCode := None;
               latency := None;
               timestamp := now_stamp env;
               Entry.error :=
                 Some match err with
                      | Route.ThrownError _ msg => msg
                      | Route.ThrownOther => "Unknown error occurred"
                      end |} in
          setTests (fun prev => slice0 20 (newTest :: prev)) s
      end in
    setIsLoading false s.

End Component.

(** *** What the component shows of an entry *)

(** Truthiness of an optional number and of an optional string. *)
Definition truthy_number (x : option Z) : bool :=
  match x with
  | Some n => negb (n =? 0)
  | None => false
  end.

Definition truthy_text (x : option string) : bool :=
  match x with
  | Some t => Js.truthy_string t
  | None => false
  end.

Definition number_of (x : option Z) : Z :=
  match x with Some n => n | None => 0 end.

Definition getStatusColor (statusCode : option Z) : string :=
  if negb (truthy_number statusCode) then "text-gray-500"
  else
    let statusCode := number_of statusCode in
    if (200 <=? statusCode) && (statusCode <? 300) then "text-green-200"
    else if (400 <=? statusCode) && (statusCode <? 600) then "text-gray-400"
    else "text-gray-500".

(** The three icons [getStatusIcon] chooses from. *)
Inductive Icon : Type :=
| XCircle
| AlertCircle
| CheckCircle.

Definition getStatusIcon (statusCode : option Z) (error : option string)
  : Icon :=
  if truthy_text error then XCircle
  else if negb (truthy_number statusCode) then AlertCircle
  else
    let statusCode := number_of statusCode in
    if (200 <=? statusCode) && (statusCode <? 300) then CheckCircle
    else XCircle.

(** The text of the status cell:
    [test.error ? "ERROR" : test.statusCode || "N/A"]. *)
Definition status_text (test : WebhookTest) : string :=
  if truthy_text (Entry.error test) then "ERROR"
  else if truthy_number (statusCode test)
       then Js.number_toString (number_of (statusCode test))
       else "N/A".

(** The latency cell is rendered only under [test.latency &&]. *)
Definition shows_latency (test : WebhookTest) : bool :=
  truthy_number (latency test).

(** The footer: the count of successful tests and the average latency. *)
Definition successful (tests : list WebhookTest) : nat :=
  List.length
    (filter
       (fun t =>
          truthy_number (statusCode t) &&
          (200 <=? number_of (statusCode t)) &&
          (number_of (statusCode t) <? 300))
       tests).

Definition latency_total (tests : list WebhookTest) : Z :=
  fold_left (fun acc t => acc + or_else (latency t) 0)
    (filter (fun t => truthy_number (latency t)) tests) 0.

Definition average_latency (tests : list WebhookTest) : Z :=
  let timed := filter (fun t => truthy_number (latency t)) tests in
  if (0 <? List.length timed)%nat
  then Math_round (inject_Z (latency_total tests) /
                   inject_Z (Z.of_nat (List.length timed)))
  else 0.

(** *** The persisted history *)

(** The item ["webhook-tests"] of [localStorage]: [None] when there is no
    such item. *)
Definition Storage : Type := option string.

Section Persistence.

(** [JSON.stringify] and [JSON.parse] on the history. *)
Variable JSON_stringify : list WebhookTest -> string.
Variable JSON_parse : string -> list WebhookTest.

(** The first effect, run once after mounting. *)
Definition load_effect (store : Storage) (s : State) : State :=
  match store with
  | Some saved =>
      if Js.truthy_string saved then setTests (fun _ => JSON_parse saved) s
      else s
  | None => s
  end.

(** The second effect, run after a render in which [tests] changed. *)
Definition save_effect (s : State) (store : Storage) : Storage :=
  if (0 <? List.length (tests s))%nat
  then Some (JSON_stringify (tests s))
  else store.

Definition clearHistory (s : State) (store : Storage) : State * Storage :=
  (setTests (fun _ => []) s, None).

End Persistence.

End Page.

(* ================================================================== *)
(** ** Vocabulary of the statements *)

Import Route.

(** The request carries a document whose [url] property is [v]. *)
Definition url_field (request : NextRequest) (v : JsValue) : Prop :=
  exists doc, json request = Some doc /\ property_url doc = Some v.

(** The protocol is one of the two the handler lets through. *)
Definition http_or_https (p : string) : Prop := p = "http:" \/ p = "https:".

(** The request passes every check of the handler, so that the probe of
    [u] is issued. *)
Definition reaches_probe (new_URL : string -> option URL)
    (request : NextRequest) (u : string) : Prop :=
  url_field request (Some (JStr u)) /\
  u <> "" /\
  exists target,
    new_URL u = Some target /\
    http_or_https (protocol target) /\
    isInternalUrl new_URL u = false.

(** No timer is pending and no controller is aborted: the state a handler
    is invoked in. *)
Definition quiescent (w : World) : Prop := timers w = [] /\ aborted w = [].

(** The probe that [POST] hands to [fetch] for [u] in the world [w]. *)
Definition probe_request (u : string) (w : World) : OutboundRequest :=
  {| out_url := u;
     out_method := "POST";
     out_headers := [ ("Content-Type", "application/json");
                      ("User-Agent", "WebhookTester/1.0") ];
     out_body := {| event := "test_ping"; timestamp := clock w;
                    source := "webhook_tester";
                    test_id := random_token w |} |}.

(** The world after the probe of [u] settled [elapsed] milliseconds after
    it was issued in [w]: the controller and the timer took two ids, the
    timer was set and then cleared. *)
Definition after_settle (u : string) (w : World) (elapsed : Z) : World :=
  {| clock := clock w + elapsed;
     random_token := random_token w;
     network := network w;
     timers := [];
     aborted := [];
     next_id := S (S (next_id w));
     trace := trace w ++ [ EvSetTimeout (S (next_id w)) 10000;
                           EvFetch (probe_request u w);
                           EvClearTimeout (S (next_id w)) ] |}.

(** The world after the timer of the probe of [u] fired: ten seconds have
    passed, the controller is aborted, and the fired timer was cleared all
    the same. *)
Definition after_abort (u : string) (w : World) : World :=
  {| clock := clock w + 10000;
     random_token := random_token w;
     network := network w;
     timers := [];
     aborted := [next_id w];
     next_id := S (S (next_id w));
     trace := trace w ++ [ EvSetTimeout (S (next_id w)) 10000;
                           EvFetch (probe_request u w);
                           EvTimerFired (S (next_id w));
                           EvClearTimeout (S (next_id w)) ] |}.

(** The requests handed to [fetch] in a trace, one per call.  Without a
    call nothing is sent; what the platform sends within a call is not
    recorded. *)
Definition outbound (tr : list Event) : list OutboundRequest :=
  flat_map (fun e => match e with EvFetch r => [r] | _ => [] end) tr.

(** The check [privateIPPatterns.some(pattern => pattern.test(hostname))]
    of [isInternalUrl]. *)
Definition private_range (hostname : string) : bool :=
  existsb (fun pattern => Regex.test pattern hostname) privateIPPatterns.

(** The four rejections of the handler and the responses they send. *)
Inductive Rejection : Type :=
| MissingUrl
| InvalidFormat
| UnsupportedScheme
| BlockedHost.

Definition rejection_response (k : Rejection) : HttpResponse :=
  match k with
  | MissingUrl =>
      {| status := 400;
         body := {| success := None; statusCode := None; latency := None;
                    error := Some "URL is required and must be a string";
                    message := None |} |}
  | InvalidFormat =>
      {| status := 400; body := failure "Invalid URL format" |}
  | UnsupportedScheme =>
      {| status := 400;
         body := failure "Only HTTP and HTTPS protocols are allowed" |}
  | BlockedHost =>
      {| status := 403;
         body := failure "Access to internal/private URLs is not allowed" |}
  end.

(** The control flow of the checks of [POST], read off the handler: the
    check at which a value of the [url] property is stopped, if any.  It
    serves to classify the runs of the handler. *)
Definition first_failure (new_URL : string -> option URL) (v : JsValue)
  : option Rejection :=
  match v with
  | Some (JStr EmptyString) => Some MissingUrl
  | Some (JStr u) =>
      match new_URL u with
      | None => Some InvalidFormat
      | Some target =>
          if String.eqb (protocol target) "http:" ||
             String.eqb (protocol target) "https:"
          then if isInternalUrl new_URL u then Some BlockedHost else None
          else Some UnsupportedScheme
      end
  | _ => Some MissingUrl
  end.

(** The blocklist rule as the specification words it: the hostname equals
    an entry of the list, or begins with an entry followed by a dot. *)
Definition spec_blocked (hostname : string) : bool :=
  existsb
    (fun blocked =>
       String.eqb hostname blocked || Js.startsWith hostname (blocked ++ "."))
    [ "localhost"; "127.0.0.1"; "0.0.0.0"; "::1"; "0:0:0:0:0:0:0:1" ].

(** Decimal rendering of one component of a dotted address. *)
Definition dec (n : N) : string := NilEmpty.string_of_uint (N.to_uint n).

Definition dotted (a b c d : N) : string :=
  dec a ++ "." ++ dec b ++ "." ++ dec c ++ "." ++ dec d.

(** The private IPv4 address classes as the specification lists them:
    10.x.x.x, 172.16.x.x to 172.31.x.x, 192.168.x.x and 169.254.x.x. *)
Inductive private_ipv4 : string -> Prop :=
| class_10 b c d :
    (b <= 255)%N -> (c <= 255)%N -> (d <= 255)%N ->
    private_ipv4 (dotted 10 b c d)
| class_172 n c d :
    (16 <= n <= 31)%N -> (c <= 255)%N -> (d <= 255)%N ->
    private_ipv4 (dotted 172 n c d)
| class_192_168 c d :
    (c <= 255)%N -> (d <= 255)%N -> private_ipv4 (dotted 192 168 c d)
| class_169_254 c d :
    (c <= 255)%N -> (d <= 255)%N -> private_ipv4 (dotted 169 254 c d).

(** An internal host in the specification's words, as far as names and
    IPv4 addresses go: one of the blocklist entries [localhost],
    [127.0.0.1] and [0.0.0.0], or an address of a private class. *)
Definition spec_internal_host (hostname : string) : Prop :=
  In hostname ["localhost"; "127.0.0.1"; "0.0.0.0"] \/ private_ipv4 hostname.

(** The checks in the specification's words and order: the value of the
    [url] property is stopped by the first check that it fails. *)
Inductive stopped_by (new_URL : string -> option URL)
  : JsValue -> Rejection -> Prop :=
| stopped_missing v :
    (forall u, v = Some (JStr u) -> u = "") ->
    stopped_by new_URL v MissingUrl
| stopped_malformed u :
    u <> "" -> new_URL u = None ->
    stopped_by new_URL (Some (JStr u)) InvalidFormat
| stopped_scheme u target :
    u <> "" -> new_URL u = Some target ->
    ~ http_or_https (protocol target) ->
    stopped_by new_URL (Some (JStr u)) UnsupportedScheme
| stopped_host u target :
    u <> "" -> new_URL u = Some target ->
    http_or_https (protocol target) ->
    spec_internal_host (Js.toLowerCase (hostname target)) ->
    stopped_by new_URL (Some (JStr u)) BlockedHost.

(** What the handler answers once [fetch] has settled with [r], the two
    readings of the clock being [latency] apart. *)
Definition settled_body (r : FetchResult) (latency : Z) : TestResponse :=
  match r with
  | Resolves st =>
      {| success := Some true; statusCode := Some st;
         latency := Some latency; error := None;
         message := Some ("Webhook responded with " ++
                          Js.number_toString st) |}
  | Rejects (ThrownError name msg) =>
      if String.eqb name "AbortError"
      then failure "Request timeout (>10s)"
      else if Js.includes msg "fetch failed"
      then failure "Network error: Could not reach the URL"
      else failure ("Request failed: " ++ msg)
  | Rejects ThrownOther => failure "Unknown error occurred"
  end.

(** The answer of the outer [catch]. *)
Definition internal_error_response : HttpResponse :=
  {| status := 500; body := failure "Internal server error" |}.

(** The answer to a thrown value that is not an [Error]. *)
Definition unknown_error_response : HttpResponse :=
  {| status := 200; body := failure "Unknown error occurred" |}.

(** An exception is raised before the inner [try] is entered:
    [request.json()] rejects, or the document is [null] and has no [url]
    to read. *)
Definition thrown_outside_fetch (request : NextRequest) : Prop :=
  json request = None \/
  exists doc, json request = Some doc /\ property_url doc = None.

(** The table of response bodies of the specification's section 6, row by
    row. *)
Definition interface_table (r : HttpResponse) : Prop :=
  r = rejection_response MissingUrl \/
  r = rejection_response InvalidFormat \/
  r = rejection_response UnsupportedScheme \/
  r = rejection_response BlockedHost \/
  r = {| status := 200; body := failure "Request timeout (>10s)" |} \/
  r = {| status := 200;
         body := failure "Network error: Could not reach the URL" |} \/
  (exists msg,
     r = {| status := 200; body := failure ("Request failed: " ++ msg) |}) \/
  r = internal_error_response \/
  (exists code lat,
     r = {| status := 200;
            body := {| success := Some true; statusCode := Some code;
                       latency := Some lat; error := None;
                       message := Some ("Webhook responded with " ++
                                        Js.number_toString code) |} |}).

(** The request [{ "url": u }]. *)
Definition post_of (u : string) : NextRequest :=
  {| json := Some (JObj [("url", JStr u)]) |}.

(** A URL that passes every check. *)
Definition example_probe : string := "https://example.com/hook".

(** A world in which every target behaves as [t]. *)
Definition world_of (t : Target) : World :=
  initial 1700000000000 "k3x9q" (fun _ => t).

(** *** The client *)

(** The user types [u] into the input and submits. *)
Definition submit (new_URL : string -> option URL) (env : Page.Env)
    (u : string) (s : Page.State) : Page.State :=
  Page.testWebhook new_URL env (Page.setUrl u s).

(** A submission that passes the two client-side checks, so that a probe is
    attempted and its result recorded. *)
Definition attempted (new_URL : string -> option URL) (u : string) : Prop :=
  Js.truthy_string (Js.trim u) = true /\ Page.isValidUrl new_URL u = true.

(** The entry that [testWebhook] builds for the URL [u]. *)
Definition recorded (env : Page.Env) (u : string) : Page.Entry.WebhookTest :=
  match Page.round_trip env with
  | Page.Replied data =>
      {| Page.Entry.id := Js.number_toString (Page.now_id env);
         Page.Entry.url := u;
         Page.Entry.statusCode := Page.or_null (statusCode data);
         Page.Entry.latency :=
           Some (Page.or_else (latency data)
                   (Page.Math_round (Page.perf_end env - Page.perf_start env)));
         Page.Entry.timestamp := Page.now_stamp env;
         Page.Entry.error := error data |}
  | Page.Failed err =>
      {| Page.Entry.id := Js.number_toString (Page.now_id env);
         Page.Entry.url := u;
         Page.Entry.statusCode := None;
         Page.Entry.latency := None;
         Page.Entry.timestamp := Page.now_stamp env;
         Page.Entry.error :=
           Some match err with
                | ThrownError _ msg => msg
                | ThrownOther => "Unknown error occurred"
                end |}
  end.

(** Submissions one after the other, oldest first. *)
Definition run_probes (new_URL : string -> option URL)
    (probes : list (Page.Env * string)) (s : Page.State) : Page.State :=
  fold_left (fun s p => submit new_URL (fst p) (snd p) s) probes s.

Definition recorded_all (probes : list (Page.Env * string))
  : list Page.Entry.WebhookTest :=
  map (fun p => recorded (fst p) (snd p)) probes.

(** The round trip to the handler, run in the world [w]. *)
Definition round_trip_to (new_URL : string -> option URL) (u : string)
    (w : World) : Page.RoundTrip :=
  match fst (POST new_URL (post_of u) w) with
  | Returned resp => Page.Replied (body resp)
  | Threw e => Page.Failed e
  | Pending => Page.Failed ThrownOther
  end.

(** U+00A0, the no-break space. *)
Definition no_break_space : string :=
  String "194"%char (String "160"%char EmptyString).

(** A component that has just been mounted, with an empty history. *)
Definition mounted : Page.State :=
  {| Page.url := ""; Page.isLoading := false; Page.tests := [];
     Page.error := "" |}.

(** What the [n]-th of a series of submissions reads: a reply of the
    handler that reports status 200 after 35 milliseconds. *)
Definition sample_env (n : nat) : Page.Env :=
  {| Page.perf_start := 0;
     Page.perf_end := 123 # 2;
     Page.now_id := 1700000000000 + Z.of_nat n;
     Page.now_stamp := 1700000000000 + Z.of_nat n;
     Page.round_trip :=
       Page.Replied
         {| success := Some true; statusCode := Some 200;
            latency := Some 35; error := None;
            message := Some "Webhook responded with 200" |} |}.

Definition sample_probes (first count : nat) : list (Page.Env * string) :=
  map (fun n => (sample_env n, example_probe)) (seq first count).

(** *** Further vocabulary *)

(** The shape every response of the handler has: a success carries a
    status code and a latency and no error and is sent with status 200;
    anything else carries an error and neither of the two numbers. *)
Definition well_shaped (r : HttpResponse) : Prop :=
  In (status r) [200; 400; 403; 500] /\
  (success (body r) = Some true ->
   status r = 200 /\ statusCode (body r) <> None /\
   latency (body r) <> None /\ error (body r) = None) /\
  (success (body r) <> Some true ->
   error (body r) <> None /\ statusCode (body r) = None /\
   latency (body r) = None /\ message (body r) = None).

(** The prefixes that the six patterns of [privateIPPatterns] stand for. *)
Definition private_prefixes : list string :=
  [ "10.";
    "172.16."; "172.17."; "172.18."; "172.19.";
    "172.20."; "172.21."; "172.22."; "172.23."; "172.24.";
    "172.25."; "172.26."; "172.27."; "172.28."; "172.29.";
    "172.30."; "172.31.";
    "192.168."; "169.254."; "fc00:"; "fd00:" ].

(** The hostname begins with the literal [p]. *)
Definition begins_with (p hostname : string) : Prop :=
  exists rest, hostname = p ++ rest.

(** The prefixes that the pattern of the client validator stands for. *)
Definition client_private_prefixes : list string :=
  [ "10.";
    "172.16."; "172.17."; "172.18."; "172.19.";
    "172.20."; "172.21."; "172.22."; "172.23."; "172.24.";
    "172.25."; "172.26."; "172.27."; "172.28."; "172.29.";
    "172.30."; "172.31.";
    "192.168." ].

(** The blocklist test of the client validator. *)
Definition client_blocked (hostname : string) : bool :=
  existsb
    (fun blocked =>
       String.eqb hostname blocked || Js.startsWith hostname (blocked ++ "."))
    Page.blockedHosts.

(** The strings a pattern matches in full. *)
Fixpoint lang (r : Regex.t) (m : string) : Prop :=
  match r with
  | Regex.Lit p => m = p
  | Regex.Range lo hi =>
      exists c, m = String c EmptyString /\
                (N_of_ascii lo <= N_of_ascii c <= N_of_ascii hi)%N
  | Regex.Cat r1 r2 => exists m1 m2, lang r1 m1 /\ lang r2 m2 /\ m = m1 ++ m2
  | Regex.Alt r1 r2 => lang r1 m \/ lang r2 m
  end.

(* ================================================================== *)
(** ** Running the handler *)

Lemma array_includes_http p :
  Js.array_includes ["http:"; "https:"] p = true <-> http_or_https p.
Proof.
  unfold Js.array_includes, http_or_https; simpl.
  rewrite !orb_true_iff, !String.eqb_eq. intuition congruence.
Qed.

Lemma truthy_string_true s : s <> "" -> Js.truthy_string s = true.
Proof. destruct s; [congruence | reflexivity]. Qed.

Section Run.

Variable new_URL : string -> option URL.

(** The setters copy the world once per field: they are evaluated
    innermost first. *)
Ltac world_norm :=
  cbv beta iota zeta delta
    [log set_timers set_clock set_aborted bump_id
     clock random_token network timers aborted next_id trace];
  cbn; rewrite ?Nat.eqb_refl; cbn; rewrite <- ?app_assoc; cbn.

Ltac run_checks :=
  unfold POST, try_catch, bind, request_json, destructure_url, ret, throw.

(** A request that passes the checks gets as far as [fetch]; when the
    exchange settles before the timer is due, the handler answers from what
    [fetch] gave and leaves the world in [after_settle]. *)
Lemma POST_settles request u w elapsed r :
  reaches_probe new_URL request u -> quiescent w ->
  network w u = Settles elapsed r -> elapsed < 10000 ->
  POST new_URL request w =
  (Returned
     (NextResponse_json
        (settled_body r (clock (after_settle u w elapsed) - clock w)) 200),
   after_settle u w elapsed).
Proof.
  intros [(doc & Hj & Hp) (Hne & target & Hu & Hproto & Hint)] [Ht Ha] Hnet Hlt.
  apply array_includes_http in Hproto.
  destruct w as [ck tok net ts ab nid tr0]; simpl in *; subst ts ab.
  run_checks. rewrite Hj; cbn. rewrite Hp; cbn.
  rewrite (truthy_string_true Hne); cbn.
  rewrite Hu, Hproto, Hint; cbn.
  rewrite Nat.eqb_refl; cbn. rewrite Hnet.
  destruct (Z.ltb_spec (ck + elapsed) (ck + 10000)) as [_ | ?]; [| lia].
  unfold settle, after_settle, probe_request, settled_body.
  destruct r as [st | [name msg |]]; cbn;
    [ | destruct (name =? "AbortError")%string;
        [ | destruct (Js.includes msg "fetch failed") ] | ];
    rewrite ?Nat.eqb_refl; world_norm; reflexivity.
Qed.

(** When the exchange has not settled by the time the timer is due, the
    timer fires, the request is aborted and the handler reports the
    timeout. *)
Lemma POST_times_out request u w :
  reaches_probe new_URL request u -> quiescent w ->
  (network w u = Hangs \/
   exists elapsed r, network w u = Settles elapsed r /\ 10000 <= elapsed) ->
  POST new_URL request w =
  (Returned (NextResponse_json (failure "Request timeout (>10s)") 200),
   after_abort u w).
Proof.
  intros [(doc & Hj & Hp) (Hne & target & Hu & Hproto & Hint)] [Ht Ha] Hnet.
  apply array_includes_http in Hproto.
  destruct w as [ck tok net ts ab nid tr0]; simpl in *; subst ts ab.
  run_checks. rewrite Hj; cbn. rewrite Hp; cbn.
  rewrite (truthy_string_true Hne); cbn.
  rewrite Hu, Hproto, Hint; cbn.
  rewrite Nat.eqb_refl; cbn.
  destruct Hnet as [Hnet | (elapsed & r & Hnet & Hge)]; rewrite Hnet.
  - unfold fire, after_abort, probe_request; cbn.
    rewrite ?Nat.eqb_refl; world_norm; reflexivity.
  - destruct (Z.ltb_spec (ck + elapsed) (ck + 10000)) as [? | _]; [lia |].
    unfold fire, after_abort, probe_request; cbn.
    rewrite ?Nat.eqb_refl; world_norm; reflexivity.
Qed.

(** The outer [catch]: an exception raised before the inner [try] is
    logged and answered with status 500. *)
Lemma POST_internal_error request w :
  thrown_outside_fetch request ->
  POST new_URL request w =
  (Returned internal_error_response, log EvConsoleError w).
Proof.
  intros [Hj | (doc & Hj & Hp)]; run_checks; rewrite Hj; cbn;
    [| rewrite Hp; cbn]; reflexivity.
Qed.

End Run.

(* ================================================================== *)
(** ** Input rejections *)

Section Rejections.

Variable new_URL : string -> option URL.

(** A request stopped by one of the four checks is answered with that
    check's response, and nothing else happens: the world is as before. *)
Lemma POST_rejects request v w k :
  url_field request v -> first_failure new_URL v = Some k ->
  POST new_URL request w = (Returned (rejection_response k), w).
Proof.
  intros (doc & Hj & Hp) Hk.
  unfold POST, try_catch, bind, request_json, destructure_url, ret, throw.
  rewrite Hj; cbn. rewrite Hp; cbn.
  destruct v as [[ | b | n | [ | c u] | items | fields] | ]; cbn in *;
    rewrite ?orb_true_r; try (injection Hk as <-; reflexivity).
  destruct (new_URL (String c u)) as [target |];
    [| injection Hk as <-; reflexivity].
  destruct ((protocol target =? "http:")%string ||
            ((protocol target =? "https:")%string || false)) eqn:Hproto;
    rewrite orb_false_r in Hproto; rewrite Hproto in Hk; cbn;
    [| injection Hk as <-; reflexivity].
  destruct (isInternalUrl new_URL (String c u));
    [injection Hk as <-; reflexivity | discriminate].
Qed.

Lemma first_failure_blocked u target :
  u <> "" -> new_URL u = Some target -> http_or_https (protocol target) ->
  isInternalUrl new_URL u = true ->
  first_failure new_URL (Some (JStr u)) = Some BlockedHost.
Proof.
  intros Hne Hu Hproto Hint. apply array_includes_http in Hproto.
  cbn in Hproto. rewrite orb_false_r in Hproto.
  destruct u; [congruence |]. cbn. now rewrite Hu, Hproto, Hint.
Qed.

End Rejections.

Lemma isInternalUrl_blocklisted (new_URL : string -> option URL) u target :
  new_URL u = Some target ->
  In (Js.toLowerCase (hostname target)) blockedHosts ->
  isInternalUrl new_URL u = true.
Proof.
  intros Hu Hin. unfold isInternalUrl. rewrite Hu.
  replace (Js.array_includes blockedHosts (Js.toLowerCase (hostname target)))
    with true; [reflexivity |].
  symmetry. apply existsb_exists.
  exists (Js.toLowerCase (hostname target)). split; [assumption |].
  apply String.eqb_refl.
Qed.

Lemma isInternalUrl_private (new_URL : string -> option URL) u target :
  new_URL u = Some target ->
  private_range (Js.toLowerCase (hostname target)) = true ->
  isInternalUrl new_URL u = true.
Proof.
  intros Hu Hp. unfold isInternalUrl. rewrite Hu.
  fold (private_range (Js.toLowerCase (hostname target))). rewrite Hp.
  now destruct (Js.array_includes _ _).
Qed.

Lemma second_octet_cases (n : N) :
  (16 <= n <= 31)%N ->
  In n [16; 17; 18; 19; 20; 21; 22; 23; 24; 25; 26; 27; 28; 29; 30; 31]%N.
Proof.
  intros H.
  destruct n as [| p]; [lia |].
  do 5 (destruct p as [p | p |]; try lia); simpl; tauto.
Qed.

(** Every address of a private IPv4 class matches one of the patterns. *)
Lemma private_ipv4_matched h : private_ipv4 h -> private_range h = true.
Proof.
  destruct 1 as [b c d _ _ _ | n c d Hn _ _ | c d _ _ | c d _ _];
    try reflexivity.
  apply second_octet_cases in Hn. simpl in Hn.
  repeat (destruct Hn as [<- | Hn]; [reflexivity |]). contradiction.
Qed.

Lemma spec_internal_host_flagged (new_URL : string -> option URL) u target :
  new_URL u = Some target ->
  spec_internal_host (Js.toLowerCase (hostname target)) ->
  isInternalUrl new_URL u = true.
Proof.
  intros Hu [Hin | Hp].
  - apply isInternalUrl_blocklisted with (target := target); [assumption |].
    simpl in Hin |- *. tauto.
  - apply isInternalUrl_private with (target := target); [assumption |].
    now apply private_ipv4_matched.
Qed.

(** A value that the specification's checks stop is stopped by the same
    check in the handler. *)
Lemma stopped_by_first_failure (new_URL : string -> option URL) v k :
  stopped_by new_URL v k -> first_failure new_URL v = Some k.
Proof.
  destruct 1 as [v Hv | u Hne Hu | u target Hne Hu Hproto
                | u target Hne Hu Hproto Hhost].
  - destruct v as [[ | b | n | u | items | fields] | ]; try reflexivity.
    now rewrite (Hv u eq_refl).
  - destruct u; [congruence |]. cbn. now rewrite Hu.
  - destruct u; [congruence |]. cbn. rewrite Hu.
    destruct (String.eqb_spec (protocol target) "http:") as [H | _];
      [exfalso; apply Hproto; now left |].
    destruct (String.eqb_spec (protocol target) "https:") as [H | _];
      [exfalso; apply Hproto; now right |].
    reflexivity.
  - apply first_failure_blocked with (target := target); try assumption.
    now apply spec_internal_host_flagged with (target := target).
Qed.

(** C6, as the handler has it.  For a request whose body is a JSON value
    other than [null], so that its [url] property can be read: when the
    [url] is missing, not a string or empty, or is malformed, or has a
    scheme other than http and https, or has scheme http or https and a
    lower-cased hostname that is [localhost], [127.0.0.1], [0.0.0.0] or an
    address of the classes 10.x.x.x, 172.16.x.x to 172.31.x.x, 192.168.x.x
    and 169.254.x.x, the handler answers with the rejection of the first
    of these checks that fails, in this order: status 400 with the check's
    own message for the first three, 403 for the last.  The world is left
    as it was, so [fetch] is not called and no timer is set. *)
Theorem input_rejected_by_first_failing_check
    (new_URL : string -> option URL) request v w k :
  url_field request v ->
  stopped_by new_URL v k ->
  POST new_URL request w = (Returned (rejection_response k), w) /\
  outbound (trace (snd (POST new_URL request w))) = outbound (trace w) /\
  status (rejection_response k) =
    match k with BlockedHost => 403 | _ => 400 end.
Proof.
  intros Hv Hk. apply stopped_by_first_failure in Hk.
  rewrite (POST_rejects new_URL w Hv Hk).
  repeat split. now destruct k.
Qed.

Lemma input_rejected_by_first_failing_check_witness :
  let request := post_of "ftp://localhost/" in
  let w := world_of (Settles 20 (Resolves 200)) in
  POST BasicURL.parse request w =
    (Returned (rejection_response UnsupportedScheme), w) /\
  outbound (trace (snd (POST BasicURL.parse request w))) = outbound (trace w) /\
  status (rejection_response UnsupportedScheme) = 400.
Proof.
  apply (@input_rejected_by_first_failing_check BasicURL.parse
           (post_of "ftp://localhost/") (Some (JStr "ftp://localhost/"))).
  - exists (JObj [("url", JStr "ftp://localhost/")]). split; reflexivity.
  - apply stopped_scheme
      with (target := {| protocol := "ftp:"; hostname := "localhost" |}).
    + discriminate.
    + reflexivity.
    + intros [H | H]; discriminate H.
Defined.

(** C6 as stated fails for the body [null]: it is a request without a
    [url], yet reading the property throws, and the handler answers with
    status 500 and "Internal server error", not with status 400. *)
Lemma null_body_answered_with_500 :
  let request := {| json := Some JNull |} in
  let w := world_of (Settles 20 (Resolves 200)) in
  property_url JNull = None /\
  POST BasicURL.parse request w =
    (Returned {| status := 500; body := failure "Internal server error" |},
     log EvConsoleError w) /\
  POST BasicURL.parse request w <>
    (Returned (rejection_response MissingUrl), w).
Proof.
  split; [reflexivity |]. split; [reflexivity |]. discriminate.
Qed.

Example rejections_in_order :
  let w := world_of (Settles 20 (Resolves 200)) in
  map (fun request => fst (POST BasicURL.parse request w))
    [ {| json := Some (JObj [("target", JStr "https://example.com/")]) |};
      {| json := Some (JObj [("url", JNum 42)]) |};
      post_of "";
      post_of "not a url";
      post_of "ftp://10.0.0.1/";
      post_of "http://LOCALHOST:3000/";
      post_of "https://172.16.0.1/hook";
      post_of "http://169.254.1.1/" ] =
  map (fun k => Returned (rejection_response k))
    [ MissingUrl; MissingUrl; MissingUrl; InvalidFormat; UnsupportedScheme;
      BlockedHost; BlockedHost; BlockedHost ].
Proof. vm_compute. reflexivity. Qed.

(* ================================================================== *)
(** ** Hosts that the blocklist and the patterns miss *)

(** A hostname in brackets, as every IPv6 literal has it, is neither an
    entry of the blocklist nor matched by a pattern. *)
Lemma bracketed_host_passes (new_URL : string -> option URL) u target rest :
  new_URL u = Some target ->
  hostname target = "[" ++ rest ->
  isInternalUrl new_URL u = false.
Proof.
  intros Hu Hh. unfold isInternalUrl. rewrite Hu, Hh. reflexivity.
Qed.

(** C1 fails on the code.  The hostname [127.0.0.1.evil] begins with the
    blocklist entry [127.0.0.1] followed by a dot, which the rule of the
    specification blocks and the client validator rejects; [isInternalUrl]
    compares for equality only and lets it through, so that the handler
    calls [fetch] and answers from the target.  Likewise the loopback
    [http://[::1]/], whose hostname is [[::1]] and not the entry [::1], is
    probed. *)
Lemma blocked_prefix_host_is_probed :
  let w := world_of (Settles 20 (Resolves 200)) in
  let answered :=
    {| status := 200;
       body := {| success := Some true; statusCode := Some 200;
                  latency := Some 20; error := None;
                  message := Some "Webhook responded with 200" |} |} in
  (BasicURL.parse "http://127.0.0.1.evil/" =
     Some {| protocol := "http:"; hostname := "127.0.0.1.evil" |} /\
   spec_blocked "127.0.0.1.evil" = true /\
   Page.isValidUrl BasicURL.parse "http://127.0.0.1.evil/" = false /\
   isInternalUrl BasicURL.parse "http://127.0.0.1.evil/" = false /\
   POST BasicURL.parse (post_of "http://127.0.0.1.evil/") w =
     (Returned answered, after_settle "http://127.0.0.1.evil/" w 20) /\
   outbound (trace (after_settle "http://127.0.0.1.evil/" w 20)) =
     [probe_request "http://127.0.0.1.evil/" w]) /\
  (SampleURL.parse "http://[::1]/" =
     Some {| protocol := "http:"; hostname := "[::1]" |} /\
   isInternalUrl SampleURL.parse "http://[::1]/" = false /\
   POST SampleURL.parse (post_of "http://[::1]/") w =
     (Returned answered, after_settle "http://[::1]/" w 20)).
Proof. vm_compute. repeat split. Qed.

(** C3 fails on the code for the IPv6 classes.  The hostname of
    [http://[fc00::1]/] is [[fc00::1]]: it begins with a bracket, the
    patterns [/^fc00:/] and [/^fd00:/] do not match it, [isInternalUrl]
    lets the URL through, and the handler calls [fetch] and answers from
    the target. *)
Lemma ipv6_unique_local_is_probed :
  let w := world_of (Settles 20 (Resolves 200)) in
  SampleURL.parse "http://[fc00::1]/" =
    Some {| protocol := "http:"; hostname := "[fc00::1]" |} /\
  private_range "[fc00::1]" = false /\
  isInternalUrl SampleURL.parse "http://[fc00::1]/" = false /\
  POST SampleURL.parse (post_of "http://[fc00::1]/") w =
    (Returned
       {| status := 200;
          body := {| success := Some true; statusCode := Some 200;
                     latency := Some 20; error := None;
                     message := Some "Webhook responded with 200" |} |},
     after_settle "http://[fc00::1]/" w 20) /\
  outbound (trace (after_settle "http://[fc00::1]/" w 20)) =
    [probe_request "http://[fc00::1]/" w].
Proof. vm_compute. repeat split. Qed.

(** The IPv4 classes and their boundary: the five addresses of the
    specification lie in a private class, and neither 172.15.255.255 nor
    the string 172.32.0.0.1 is matched by a pattern. *)
Example private_ipv4_examples :
  private_ipv4 "10.0.0.1" /\ private_ipv4 "172.16.0.1" /\
  private_ipv4 "172.31.255.255" /\ private_ipv4 "192.168.1.1" /\
  private_ipv4 "169.254.1.1" /\
  private_range "172.15.255.255" = false /\
  private_range "172.32.0.0.1" = false /\
  isInternalUrl BasicURL.parse "http://172.15.255.255/" = false.
Proof.
  repeat split.
  - apply (@class_10 0 0 1); lia.
  - apply (@class_172 16 0 1); lia.
  - apply (@class_172 31 255 255); lia.
  - apply (@class_192_168 1 1); lia.
  - apply (@class_169_254 1 1); lia.
Qed.

(* ================================================================== *)
(** ** Every run of the handler *)

Section Classification.

Variable new_URL : string -> option URL.

Lemma first_failure_none request v :
  url_field request v -> first_failure new_URL v = None ->
  exists u, v = Some (JStr u) /\ reaches_probe new_URL request u.
Proof.
  intros Hv Hk.
  destruct v as [[ | b | n | [ | c u] | items | fields] | ];
    try discriminate Hk.
  exists (String c u). split; [reflexivity |].
  cbn in Hk.
  destruct (new_URL (String c u)) as [target |] eqn:Hu; [| discriminate].
  destruct ((protocol target =? "http:")%string ||
            (protocol target =? "https:")%string) eqn:Hproto;
    [| discriminate].
  destruct (isInternalUrl new_URL (String c u)) eqn:Hint; [discriminate |].
  split; [assumption |]. split; [discriminate |].
  exists target. repeat split; try assumption.
  apply orb_true_iff in Hproto. unfold http_or_https.
  rewrite !String.eqb_eq in Hproto. exact Hproto.
Qed.

(** The probe of a request that passed the checks ends in one of two
    ways. *)
Lemma POST_probe_cases request u w :
  reaches_probe new_URL request u -> quiescent w ->
  (exists elapsed r,
     network w u = Settles elapsed r /\ elapsed < 10000 /\
     POST new_URL request w =
     (Returned
        (NextResponse_json
           (settled_body r (clock (after_settle u w elapsed) - clock w)) 200),
      after_settle u w elapsed)) \/
  ((network w u = Hangs \/
    exists elapsed r, network w u = Settles elapsed r /\ 10000 <= elapsed) /\
   POST new_URL request w =
   (Returned (NextResponse_json (failure "Request timeout (>10s)") 200),
    after_abort u w)).
Proof.
  intros Hreach Hq.
  destruct (network w u) as [elapsed r |] eqn:Hnet.
  - destruct (Z_lt_le_dec elapsed 10000) as [Hlt | Hge].
    + left. exists elapsed, r. repeat split; try assumption.
      now apply POST_settles.
    + right. split; [right; now exists elapsed, r |].
      apply POST_times_out; try assumption.
      right. now exists elapsed, r.
  - right. split; [now left |].
    apply POST_times_out; try assumption. now left.
Qed.

(** Whatever the request, the handler returns a response, in one of three
    ways. *)
Lemma POST_classified request w :
  quiescent w ->
  (thrown_outside_fetch request /\
   POST new_URL request w =
   (Returned internal_error_response, log EvConsoleError w)) \/
  (exists v k,
     url_field request v /\ first_failure new_URL v = Some k /\
     POST new_URL request w = (Returned (rejection_response k), w)) \/
  (exists u resp w',
     reaches_probe new_URL request u /\
     POST new_URL request w = (Returned resp, w') /\
     status resp = 200 /\
     outbound (trace w') = (outbound (trace w) ++ [probe_request u w])%list).
Proof.
  intros Hq.
  destruct (json request) as [doc |] eqn:Hj.
  2: { left. split; [now left |]. apply POST_internal_error. now left. }
  destruct (property_url doc) as [v |] eqn:Hp.
  2: { left.
       assert (thrown_outside_fetch request) by (right; now exists doc).
       split; [assumption |]. now apply POST_internal_error. }
  assert (Hv : url_field request v) by now exists doc.
  destruct (first_failure new_URL v) as [k |] eqn:Hk.
  - right; left. exists v, k. repeat split; try assumption.
    now apply POST_rejects with (v := v).
  - right; right.
    destruct (first_failure_none Hv Hk) as (u & -> & Hreach).
    exists u.
    destruct (POST_probe_cases Hreach Hq)
      as [(elapsed & r & _ & _ & Hrun) | [_ Hrun]];
      rewrite Hrun; eexists; eexists;
      (split; [assumption |]); (split; [reflexivity |]);
      (split; [reflexivity |]);
      unfold outbound; cbn; rewrite flat_map_app; cbn; reflexivity.
Qed.

End Classification.

(* ================================================================== *)
(** ** The probe *)

(** C4.  When the target has not completed the exchange ten seconds after
    the request was issued (it never answers, or would answer only then or
    later), the timer fires and aborts the request, and the handler
    returns status 200 with the body [success: false], [error: "Request
    timeout (>10s)"], with neither a status code nor a latency. *)
Theorem timeout_reported (new_URL : string -> option URL) request u w :
  reaches_probe new_URL request u ->
  quiescent w ->
  (network w u = Hangs \/
   exists elapsed r, network w u = Settles elapsed r /\ 10000 <= elapsed) ->
  exists resp w',
    POST new_URL request w = (Returned resp, w') /\
    status resp = 200 /\
    body resp = {| success := Some false; statusCode := None;
                   latency := None;
                   error := Some "Request timeout (>10s)";
                   message := None |} /\
    clock w' = clock w + 10000 /\
    In (EvTimerFired (S (next_id w))) (trace w') /\
    aborted w' = [next_id w].
Proof.
  intros Hreach Hq Hnet.
  exists (NextResponse_json (failure "Request timeout (>10s)") 200),
    (after_abort u w).
  split; [now apply POST_times_out |].
  repeat split. cbn. apply in_or_app. right. simpl. tauto.
Qed.

Lemma example_reaches_probe :
  reaches_probe BasicURL.parse (post_of example_probe) example_probe.
Proof.
  split; [| split; [discriminate |]].
  - exists (JObj [("url", JStr example_probe)]). split; reflexivity.
  - exists {| protocol := "https:"; hostname := "example.com" |}.
    repeat split. right; reflexivity.
Defined.

Lemma world_of_quiescent t : quiescent (world_of t).
Proof. split; reflexivity. Defined.

Lemma timeout_reported_witness :
  exists resp w',
    POST BasicURL.parse (post_of example_probe) (world_of Hangs) =
      (Returned resp, w') /\
    status resp = 200 /\
    body resp = {| success := Some false; statusCode := None;
                   latency := None;
                   error := Some "Request timeout (>10s)";
                   message := None |} /\
    clock w' = clock (world_of Hangs) + 10000 /\
    In (EvTimerFired (S (next_id (world_of Hangs)))) (trace w') /\
    aborted w' = [next_id (world_of Hangs)].
Proof.
  apply (@timeout_reported BasicURL.parse (post_of example_probe)
           example_probe (world_of Hangs)).
  - exact example_reaches_probe.
  - apply world_of_quiescent.
  - left; reflexivity.
Defined.

(** C5.  When the exchange completes before the deadline with any status
    code, the handler returns status 200 with [success: true], the
    target's status as [statusCode], and as [latency] the difference of
    the clock readings taken just before the request and just after the
    response. *)
Theorem completed_exchange_reported
    (new_URL : string -> option URL) request u w elapsed code :
  reaches_probe new_URL request u ->
  quiescent w ->
  network w u = Settles elapsed (Resolves code) ->
  elapsed < 10000 ->
  exists resp w',
    POST new_URL request w = (Returned resp, w') /\
    status resp = 200 /\
    success (body resp) = Some true /\
    statusCode (body resp) = Some code /\
    latency (body resp) = Some (clock w' - clock w) /\
    clock w' = clock w + elapsed /\
    error (body resp) = None.
Proof.
  intros Hreach Hq Hnet Hlt.
  eexists; eexists. split.
  - apply (POST_settles Hreach Hq Hnet Hlt).
  - repeat split.
Qed.

Lemma completed_exchange_reported_witness :
  exists resp w',
    POST BasicURL.parse (post_of example_probe)
      (world_of (Settles 35 (Resolves 404))) = (Returned resp, w') /\
    status resp = 200 /\
    success (body resp) = Some true /\
    statusCode (body resp) = Some 404 /\
    latency (body resp) =
      Some (clock w' - clock (world_of (Settles 35 (Resolves 404)))) /\
    clock w' = clock (world_of (Settles 35 (Resolves 404))) + 35 /\
    error (body resp) = None.
Proof.
  apply (@completed_exchange_reported BasicURL.parse (post_of example_probe)
           example_probe (world_of (Settles 35 (Resolves 404))) 35 404).
  - exact example_reaches_probe.
  - apply world_of_quiescent.
  - reflexivity.
  - lia.
Defined.

(** C8.  Whatever the target does (it answers, it never answers, [fetch]
    rejects with a network failure or with anything else), a request that
    reaches the probe gets a response, and when the handler returns no
    timer is pending: the one timer it set was cleared, as the last effect
    before returning, also after that timer had fired. *)
Theorem timer_cleared_on_every_exit
    (new_URL : string -> option URL) request u w :
  reaches_probe new_URL request u ->
  quiescent w ->
  exists resp w' mid,
    POST new_URL request w = (Returned resp, w') /\
    timers w' = [] /\
    trace w' = (trace w ++ [EvSetTimeout (S (next_id w)) 10000] ++ mid ++
                [EvClearTimeout (S (next_id w))])%list /\
    (mid = [EvFetch (probe_request u w)] \/
     mid = [EvFetch (probe_request u w); EvTimerFired (S (next_id w))]).
Proof.
  intros Hreach Hq.
  destruct (POST_probe_cases Hreach Hq)
    as [(elapsed & r & _ & _ & Hrun) | [_ Hrun]]; rewrite Hrun.
  - eexists; exists (after_settle u w elapsed).
    exists [EvFetch (probe_request u w)].
    repeat split. now left.
  - eexists; exists (after_abort u w).
    exists [EvFetch (probe_request u w); EvTimerFired (S (next_id w))].
    repeat split. now right.
Qed.

Lemma timer_cleared_on_every_exit_witness :
  let w := world_of (Settles 12 (Rejects (ThrownError "TypeError" "fetch failed"))) in
  exists resp w' mid,
    POST BasicURL.parse (post_of example_probe) w = (Returned resp, w') /\
    timers w' = [] /\
    trace w' = (trace w ++ [EvSetTimeout (S (next_id w)) 10000] ++ mid ++
                [EvClearTimeout (S (next_id w))])%list /\
    (mid = [EvFetch (probe_request example_probe w)] \/
     mid = [EvFetch (probe_request example_probe w);
            EvTimerFired (S (next_id w))]).
Proof.
  apply (@timer_cleared_on_every_exit BasicURL.parse (post_of example_probe)
           example_probe).
  - exact example_reaches_probe.
  - apply world_of_quiescent.
Defined.

Lemma unknown_error_not_in_table : ~ interface_table unknown_error_response.
Proof.
  unfold interface_table, unknown_error_response.
  intros [H | [H | [H | [H | [H | [H | [(msg & H) | [H | (c & l & H)]]]]]]]];
    discriminate H.
Qed.

(** C10.  When [fetch] rejects with a value that is not an [Error], the
    handler returns status 200 with the body [success: false], [error:
    "Unknown error occurred"], which is none of the rows of the interface
    table, and not the status 500 answer; a status 500 answer is returned
    only when an exception was raised before the inner [try] was entered,
    and then no outbound request was issued.  The handler returns a
    response in every case. *)
Theorem non_error_throw_reported
    (new_URL : string -> option URL) request w :
  quiescent w ->
  (forall u elapsed,
     reaches_probe new_URL request u ->
     network w u = Settles elapsed (Rejects ThrownOther) ->
     elapsed < 10000 ->
     POST new_URL request w =
       (Returned unknown_error_response, after_settle u w elapsed)) /\
  status unknown_error_response = 200 /\
  ~ interface_table unknown_error_response /\
  (forall resp w',
     POST new_URL request w = (Returned resp, w') ->
     status resp = 500 ->
     thrown_outside_fetch request /\
     outbound (trace w') = outbound (trace w)) /\
  (exists resp w', POST new_URL request w = (Returned resp, w')).
Proof.
  intros Hq. split; [| split; [reflexivity | split; [| split]]].
  - intros u elapsed Hreach Hnet Hlt.
    exact (POST_settles Hreach Hq Hnet Hlt).
  - exact unknown_error_not_in_table.
  - intros resp w' Hrun Hst.
    destruct (POST_classified new_URL request Hq)
      as [[Hout Hrun'] | [(v & k & _ & _ & Hrun')
                         | (u & resp' & w'' & _ & Hrun' & Hst' & _)]];
      rewrite Hrun' in Hrun; injection Hrun as <- <-.
    + split; [assumption |].
      unfold outbound, log; cbn. rewrite flat_map_app; cbn.
      now rewrite app_nil_r.
    + destruct k; discriminate Hst.
    + rewrite Hst' in Hst. discriminate Hst.
  - destruct (POST_classified new_URL request Hq)
      as [[_ Hrun] | [(v & k & _ & _ & Hrun)
                     | (u & resp & w' & _ & Hrun & _)]];
      rewrite Hrun; eexists; eexists; reflexivity.
Qed.

Lemma non_error_throw_reported_witness :
  POST BasicURL.parse (post_of example_probe)
    (world_of (Settles 7 (Rejects ThrownOther))) =
  (Returned unknown_error_response,
   after_settle example_probe (world_of (Settles 7 (Rejects ThrownOther))) 7).
Proof.
  refine (proj1 (@non_error_throw_reported BasicURL.parse
                   (post_of example_probe)
                   (world_of (Settles 7 (Rejects ThrownOther)))
                   (world_of_quiescent _))
            example_probe 7 example_reaches_probe eq_refl _).
  lia.
Defined.

(* ================================================================== *)
(** ** The history of the client *)

Section History.

Variable new_URL : string -> option URL.

Lemma firstn_app_firstn {A} (n : nat) (a b : list A) :
  firstn n (a ++ firstn n b) = firstn n (a ++ b).
Proof.
  rewrite !firstn_app, firstn_firstn.
  now replace (Nat.min (n - List.length a) n)
    with (n - List.length a)%nat by lia.
Qed.

(** One attempted probe puts its entry at the head of the list and keeps
    the first twenty. *)
Lemma submit_tests env u s :
  attempted new_URL u ->
  Page.tests (submit new_URL env u s) =
  firstn 20 (recorded env u :: Page.tests s).
Proof.
  intros [Hblank Hvalid].
  unfold submit, Page.testWebhook, recorded.
  change (Page.url (Page.setError "" (Page.setUrl u s))) with u.
  rewrite Hblank, Hvalid.
  destruct (Page.round_trip env); reflexivity.
Qed.

(** The invariant of a run: the list is the first twenty of all that was
    recorded, newest first. *)
Lemma run_probes_from probes : forall s l,
  Page.tests s = firstn 20 l ->
  Forall (fun p => attempted new_URL (snd p)) probes ->
  Page.tests (run_probes new_URL probes s) =
  firstn 20 (rev (recorded_all probes) ++ l).
Proof.
  induction probes as [| [env u] probes IH]; intros s l Hs Hall.
  - exact Hs.
  - inversion Hall as [| p ps Hp Hps]; subst. cbn in Hp.
    cbn [run_probes fold_left fst snd].
    fold (run_probes new_URL probes (submit new_URL env u s)).
    rewrite (IH _ (recorded env u :: l)); [| | assumption].
    + cbn [recorded_all map rev fst snd]. now rewrite <- app_assoc.
    + rewrite (submit_tests env s Hp), Hs.
      apply (firstn_app_firstn 20 [recorded env u] l).
Qed.

Lemma run_probes_tests env u probes s :
  Forall (fun p => attempted new_URL (snd p)) ((env, u) :: probes) ->
  Page.tests (run_probes new_URL ((env, u) :: probes) s) =
  firstn 20 (rev (recorded_all ((env, u) :: probes)) ++ Page.tests s).
Proof.
  intros Hall. inversion Hall as [| p ps Hp Hps]; subst. cbn in Hp.
  cbn [run_probes fold_left fst snd].
  fold (run_probes new_URL probes (submit new_URL env u s)).
  rewrite (@run_probes_from probes _ (recorded env u :: Page.tests s));
    [| now apply submit_tests | assumption].
  cbn [recorded_all map rev fst snd]. now rewrite <- app_assoc.
Qed.

End History.

Lemma run_probes_snoc (new_URL : string -> option URL) probes env u s :
  run_probes new_URL (probes ++ [(env, u)]) s =
  submit new_URL env u (run_probes new_URL probes s).
Proof. unfold run_probes. now rewrite fold_left_app. Qed.

(** C7.  After any series of attempted probes, one more attempted probe
    leaves a history whose head is the new entry, followed by the first
    nineteen entries of the history before it, so that it holds at most
    twenty entries, newest first; and when that probe is the twenty-fifth
    of the series, the history is exactly the entries of the last twenty
    probes, newest first. *)
Theorem history_capped_newest_first
    (new_URL : string -> option URL) probes env u s :
  Forall (fun p => attempted new_URL (snd p)) probes ->
  attempted new_URL u ->
  let before := Page.tests (run_probes new_URL probes s) in
  let after := Page.tests (run_probes new_URL (probes ++ [(env, u)]) s) in
  after = recorded env u :: firstn 19 before /\
  (List.length after <= 20)%nat /\
  (List.length (probes ++ [(env, u)]) = 25%nat ->
   after = rev (recorded_all (skipn 5 (probes ++ [(env, u)]))) /\
   List.length after = 20%nat).
Proof.
  intros Hall Hu before after.
  assert (Hstep : after = firstn 20 (recorded env u :: before)).
  { unfold after. rewrite run_probes_snoc. now apply submit_tests. }
  split; [exact Hstep |]. split.
  { rewrite Hstep. apply firstn_le_length. }
  intros Hlen.
  assert (Hall' : Forall (fun p => attempted new_URL (snd p))
                    (probes ++ [(env, u)])).
  { apply Forall_app. split; [assumption |]. now constructor. }
  assert (Hnewest :
            after = rev (recorded_all (skipn 5 (probes ++ [(env, u)])))).
  { unfold after.
    destruct (probes ++ [(env, u)])%list as [| [env0 u0] rest] eqn:Hsplit;
      [discriminate Hlen |].
    rewrite (run_probes_tests s Hall').
    rewrite firstn_app, firstn_rev.
    unfold recorded_all at 1 2 3.
    rewrite !length_rev, !length_map, Hlen.
    change (25 - 20)%nat with 5%nat. change (20 - 25)%nat with 0%nat.
    rewrite firstn_O, app_nil_r, skipn_map. reflexivity. }
  split; [exact Hnewest |].
  rewrite Hnewest. unfold recorded_all.
  rewrite length_rev, length_map, length_skipn, Hlen. reflexivity.
Qed.

Lemma sample_attempted : attempted BasicURL.parse example_probe.
Proof. split; reflexivity. Defined.

Lemma history_capped_newest_first_witness :
  let before :=
    Page.tests (run_probes BasicURL.parse (sample_probes 0 24) mounted) in
  let after :=
    Page.tests
      (run_probes BasicURL.parse
         (sample_probes 0 24 ++ [(sample_env 24, example_probe)]) mounted) in
  after = recorded (sample_env 24) example_probe :: firstn 19 before /\
  (List.length after <= 20)%nat /\
  (List.length (sample_probes 0 24 ++ [(sample_env 24, example_probe)]) =
     25%nat ->
   after =
     rev (recorded_all
            (skipn 5 (sample_probes 0 24 ++
                      [(sample_env 24, example_probe)]))) /\
   List.length after = 20%nat).
Proof.
  apply (@history_capped_newest_first BasicURL.parse (sample_probes 0 24)
           (sample_env 24) example_probe mounted).
  - unfold sample_probes. simpl map.
    repeat (constructor; [exact sample_attempted |]). constructor.
  - exact sample_attempted.
Defined.

Example twenty_five_probes :
  map Page.Entry.id
    (Page.tests (run_probes BasicURL.parse (sample_probes 0 25) mounted)) =
  map (fun n => Js.number_toString (1700000000000 + Z.of_nat n))
    (rev (seq 5 20)).
Proof. vm_compute. reflexivity. Qed.

(* ================================================================== *)
(** ** The latency the client records *)

Lemma reported_latency_recorded env u data n :
  Page.round_trip env = Page.Replied data ->
  latency data = Some n -> n <> 0 ->
  Page.Entry.latency (recorded env u) = Some n.
Proof.
  intros Hrt Hl Hn. unfold recorded. rewrite Hrt; cbn. rewrite Hl; cbn.
  destruct (Z.eqb_spec n 0); [contradiction | reflexivity].
Qed.

Lemma absent_latency_measured env u data :
  Page.round_trip env = Page.Replied data ->
  latency data = None ->
  Page.Entry.latency (recorded env u) =
  Some (Page.Math_round (Page.perf_end env - Page.perf_start env)).
Proof.
  intros Hrt Hl. unfold recorded. rewrite Hrt; cbn. now rewrite Hl.
Qed.

(** C9 fails on the code for a reported latency of zero.  The handler,
    probing a target that answers within the same millisecond, reports
    [latency: 0]; the client, whose own round trip took 48.5 milliseconds,
    records 49 and not the reported 0. *)
Lemma zero_latency_replaced :
  let w := world_of (Settles 0 (Resolves 200)) in
  let env :=
    {| Page.perf_start := 1000 # 1;
       Page.perf_end := 2097 # 2;
       Page.now_id := 1700000000050;
       Page.now_stamp := 1700000000050;
       Page.round_trip := round_trip_to BasicURL.parse example_probe w |} in
  Page.round_trip env =
    Page.Replied
      {| success := Some true; statusCode := Some 200; latency := Some 0;
         error := None; message := Some "Webhook responded with 200" |} /\
  map Page.Entry.latency
    (Page.tests (submit BasicURL.parse env example_probe mounted)) =
    [Some 49].
Proof. vm_compute. split; reflexivity. Qed.

(* ================================================================== *)
(** ** The two validators *)

(** C2 fails on the code in both directions.  The client validator
    rejects [http://127.0.0.1.evil/], which the handler probes; and it
    accepts [http://169.254.1.1/], which the handler rejects with status
    403. *)
Lemma validators_disagree :
  let w := world_of (Settles 20 (Resolves 200)) in
  (Page.isValidUrl BasicURL.parse "http://127.0.0.1.evil/" = false /\
   outbound (trace (snd (POST BasicURL.parse
                           (post_of "http://127.0.0.1.evil/") w))) =
     [probe_request "http://127.0.0.1.evil/" w]) /\
  (Page.isValidUrl BasicURL.parse "http://169.254.1.1/" = true /\
   POST BasicURL.parse (post_of "http://169.254.1.1/") w =
     (Returned (rejection_response BlockedHost), w)).
Proof. vm_compute. repeat split. Qed.

(* ================================================================== *)
(** ** The sample parser on the inputs used above *)

Example parse_samples :
  map BasicURL.parse
    [ "http://127.0.0.1.evil/"; "https://LocalHost:8080/hook";
      "ftp://localhost/"; "http://172.31.255.255/hook";
      "http://169.254.1.1/"; "https://example.com/hook";
      "http://1.2.3/"; "http://0x7f.1/"; "not a url" ] =
  [ Some {| protocol := "http:"; hostname := "127.0.0.1.evil" |};
    Some {| protocol := "https:"; hostname := "localhost" |};
    Some {| protocol := "ftp:"; hostname := "localhost" |};
    Some {| protocol := "http:"; hostname := "172.31.255.255" |};
    Some {| protocol := "http:"; hostname := "169.254.1.1" |};
    Some {| protocol := "https:"; hostname := "example.com" |};
    None; None; None ].
Proof. reflexivity. Qed.

(* ================================================================== *)
(** ** Further properties of the handler *)

Section HandlerShape.

Variable new_URL : string -> option URL.

Lemma rejection_well_shaped k : well_shaped (rejection_response k).
Proof.
  destruct k; (split; [simpl; tauto |]); split; cbn;
    intros H; try discriminate H; repeat split; congruence.
Qed.

Lemma settled_well_shaped r lat :
  well_shaped (NextResponse_json (settled_body r lat) 200).
Proof.
  split; [simpl; tauto |].
  destruct r as [st | [name msg |]]; cbn;
    [ | destruct (name =? "AbortError")%string;
        [ | destruct (Js.includes msg "fetch failed") ] | ]; cbn;
    split; intros H; try discriminate H; repeat split; congruence.
Qed.

(** Every response of the handler is well shaped. *)
Lemma POST_well_shaped request w :
  quiescent w ->
  exists resp w',
    POST new_URL request w = (Returned resp, w') /\ well_shaped resp.
Proof.
  intros Hq.
  destruct (json request) as [doc |] eqn:Hj.
  2: { eexists; eexists. split.
       - apply POST_internal_error. now left.
       - split; [simpl; tauto |]. split; cbn; intros H;
           try discriminate H; repeat split; congruence. }
  destruct (property_url doc) as [v |] eqn:Hp.
  2: { eexists; eexists. split.
       - apply POST_internal_error. right. now exists doc.
       - split; [simpl; tauto |]. split; cbn; intros H;
           try discriminate H; repeat split; congruence. }
  assert (Hv : url_field request v) by now exists doc.
  destruct (first_failure new_URL v) as [k |] eqn:Hk.
  - eexists; eexists. split.
    + exact (POST_rejects new_URL w Hv Hk).
    + apply rejection_well_shaped.
  - destruct (first_failure_none new_URL Hv Hk) as (u & -> & Hreach).
    destruct (POST_probe_cases Hreach Hq)
      as [(elapsed & r & _ & _ & Hrun) | [_ Hrun]];
      rewrite Hrun; eexists; eexists; (split; [reflexivity |]).
    + apply settled_well_shaped.
    + apply (settled_well_shaped
               (Rejects (ThrownError "AbortError" "")) 0).
Qed.

(** X1.  Whatever the request and whatever the target does, the handler
    returns a response whose HTTP status is 200, 400, 403 or 500 and whose
    body is either a success with a status code, a latency and no error,
    sent with status 200, or a body with an error and neither a status
    code nor a latency. *)
Theorem every_response_well_shaped request w :
  quiescent w ->
  exists resp w',
    POST new_URL request w = (Returned resp, w') /\ well_shaped resp.
Proof. exact (@POST_well_shaped request w). Qed.

(** X2.  One call of the handler calls [fetch] at most once, without any
    retry, and leaves no timer pending: either [fetch] is not called, or
    it is called exactly once, with the submitted string as it was
    submitted, the method POST, the JSON content type, the WebhookTester
    user agent and the test payload, and that only for a request that
    passed every check.  What the platform does within that call, such as
    following redirects, is outside this statement. *)
Theorem fetch_called_at_most_once request w :
  quiescent w ->
  exists resp w',
    POST new_URL request w = (Returned resp, w') /\
    timers w' = [] /\
    (outbound (trace w') = outbound (trace w) \/
     exists u,
       reaches_probe new_URL request u /\
       outbound (trace w') =
         (outbound (trace w) ++
          [ {| out_url := u;
               out_method := "POST";
               out_headers := [ ("Content-Type", "application/json");
                                ("User-Agent", "WebhookTester/1.0") ];
               out_body := {| event := "test_ping"; timestamp := clock w;
                              source := "webhook_tester";
                              test_id := random_token w |} |} ])%list).
Proof.
  intros Hq. pose proof Hq as [Ht _].
  destruct (json request) as [doc |] eqn:Hj.
  2: { eexists; eexists. split; [apply POST_internal_error; now left |].
       split; [exact Ht |]. left.
       unfold outbound, log; cbn. rewrite flat_map_app; cbn.
       now rewrite app_nil_r. }
  destruct (property_url doc) as [v |] eqn:Hp.
  2: { eexists; eexists.
       split; [apply POST_internal_error; right; now exists doc |].
       split; [exact Ht |]. left.
       unfold outbound, log; cbn. rewrite flat_map_app; cbn.
       now rewrite app_nil_r. }
  assert (Hv : url_field request v) by now exists doc.
  destruct (first_failure new_URL v) as [k |] eqn:Hk.
  - eexists; eexists. split; [exact (POST_rejects new_URL w Hv Hk) |].
    split; [exact Ht |]. now left.
  - destruct (first_failure_none new_URL Hv Hk) as (u & -> & Hreach).
    destruct (POST_probe_cases Hreach Hq)
      as [(elapsed & r & _ & _ & Hrun) | [_ Hrun]];
      rewrite Hrun; eexists; eexists; (split; [reflexivity |]);
      (split; [reflexivity |]); right; exists u; (split; [assumption |]);
      unfold outbound; cbn; rewrite flat_map_app; cbn; reflexivity.
Qed.

(** X3.  When [fetch] rejects with an [Error] before the deadline, the
    handler answers with status 200 and classifies the error by its name
    first and its message second: the name [AbortError] is reported as a
    timeout although less than ten seconds passed; otherwise a message
    containing "fetch failed" is reported as a network error; any other
    message is passed on behind "Request failed: ". *)
Theorem fetch_error_classified request u w elapsed name msg :
  reaches_probe new_URL request u ->
  quiescent w ->
  network w u = Settles elapsed (Rejects (ThrownError name msg)) ->
  elapsed < 10000 ->
  exists w',
    clock w' - clock w = elapsed /\
    POST new_URL request w =
    (Returned
       {| status := 200;
          body :=
            failure
              (if String.eqb name "AbortError" then "Request timeout (>10s)"
               else if Js.includes msg "fetch failed"
                    then "Network error: Could not reach the URL"
                    else "Request failed: " ++ msg) |}, w').
Proof.
  intros Hreach Hq Hnet Hlt.
  exists (after_settle u w elapsed). split; [cbn; lia |].
  rewrite (POST_settles Hreach Hq Hnet Hlt). cbn.
  destruct (name =? "AbortError")%string;
    [| destruct (Js.includes msg "fetch failed")]; reflexivity.
Qed.

End HandlerShape.

Lemma every_response_well_shaped_witness :
  exists resp w',
    POST BasicURL.parse (post_of "ftp://localhost/")
      (world_of (Settles 20 (Resolves 200))) = (Returned resp, w') /\
    well_shaped resp.
Proof.
  apply (@every_response_well_shaped BasicURL.parse
           (post_of "ftp://localhost/")
           (world_of (Settles 20 (Resolves 200)))).
  apply world_of_quiescent.
Defined.

Lemma fetch_error_classified_witness :
  let w := world_of (Settles 12 (Rejects (ThrownError "TypeError"
                                            "fetch failed"))) in
  exists w',
    clock w' - clock w = 12 /\
    POST BasicURL.parse (post_of example_probe) w =
    (Returned
       {| status := 200;
          body := failure "Network error: Could not reach the URL" |}, w').
Proof.
  apply (@fetch_error_classified BasicURL.parse (post_of example_probe)
           example_probe
           (world_of (Settles 12 (Rejects (ThrownError "TypeError"
                                             "fetch failed"))))
           12 "TypeError" "fetch failed").
  - exact example_reaches_probe.
  - apply world_of_quiescent.
  - reflexivity.
  - lia.
Defined.

(* ================================================================== *)
(** ** What the patterns match *)

Lemma append_assoc (a b c : string) : (a ++ b) ++ c = a ++ (b ++ c).
Proof. induction a as [| x a IH]; cbn; [reflexivity | now rewrite IH]. Qed.

Lemma strip_spec p : forall s r, Regex.strip p s = Some r <-> s = p ++ r.
Proof.
  induction p as [| a p IH]; intros s r; cbn.
  - split; [now intros [= ->] | now intros ->].
  - destruct s as [| b s]; [split; discriminate |].
    destruct (Ascii.eqb_spec a b) as [-> | Hne].
    + rewrite IH. split; [now intros -> | now intros [= ->]].
    + split; [discriminate | intros [= H _]; congruence].
Qed.

(** The matcher is exact: the residues of [r] on [s] are the rests of [s]
    behind the strings that [r] matches. *)
Lemma residues_spec r : forall s x,
  In x (Regex.residues r s) <-> exists m, lang r m /\ s = m ++ x.
Proof.
  induction r as [p | lo hi | r1 IH1 r2 IH2 | r1 IH1 r2 IH2]; intros s x; cbn.
  - destruct (Regex.strip p s) as [r |] eqn:Hs; cbn.
    + split.
      * intros [<- | []]. exists p. split; [reflexivity |].
        now apply strip_spec.
      * intros (m & -> & Heq). apply strip_spec in Heq.
        rewrite Heq in Hs. injection Hs as ->. now left.
    + split; [intros [] |]. intros (m & -> & Heq).
      apply strip_spec in Heq. congruence.
  - destruct s as [| c s].
    + split; [intros [] |]. intros (m & (c & -> & _) & Heq). discriminate Heq.
    + destruct ((N_of_ascii lo <=? N_of_ascii c)%N &&
                (N_of_ascii c <=? N_of_ascii hi)%N) eqn:Hr.
      * apply andb_true_iff in Hr. rewrite !N.leb_le in Hr. cbn. split.
        -- intros [-> | []]. exists (String c EmptyString).
           split; [now exists c | reflexivity].
        -- intros (m & (c' & -> & _) & [= -> ->]). now left.
      * split; [intros [] |].
        intros (m & (c' & -> & Hc) & [= -> ->]).
        apply andb_false_iff in Hr. rewrite !N.leb_gt in Hr. lia.
  - rewrite in_flat_map. split.
    + intros (y & Hy & Hx). apply IH1 in Hy. apply IH2 in Hx.
      destruct Hy as (m1 & H1 & ->). destruct Hx as (m2 & H2 & ->).
      exists (m1 ++ m2). split; [now exists m1, m2 |].
      now rewrite append_assoc.
    + intros (m & (m1 & m2 & H1 & H2 & ->) & ->).
      exists (m2 ++ x). split.
      * apply IH1. exists m1. split; [assumption |].
        now rewrite append_assoc.
      * apply IH2. now exists m2.
  - rewrite in_app_iff, IH1, IH2. split.
    + intros [(m & H & ->) | (m & H & ->)]; exists m; tauto.
    + intros (m & [H | H] & ->); [left | right]; now exists m.
Qed.

Lemma test_spec r s :
  Regex.test r s = true <-> exists m, lang r m /\ begins_with m s.
Proof.
  unfold Regex.test, begins_with.
  destruct (Regex.residues r s) as [| x l] eqn:Hres.
  - split; [discriminate |]. intros (m & Hm & rest & ->).
    assert (Hin : In rest (Regex.residues r (m ++ rest)))
      by (apply residues_spec; now exists m).
    rewrite Hres in Hin. contradiction.
  - split; [intros _ | reflexivity].
    assert (Hin : In x (Regex.residues r s)) by (rewrite Hres; now left).
    apply residues_spec in Hin. destruct Hin as (m & Hm & ->).
    exists m. split; [assumption | now exists x].
Qed.

Lemma range_cases (lo hi : N) c :
  (lo <= N_of_ascii c <= hi)%N ->
  exists n, (lo <= n <= hi)%N /\ c = ascii_of_N n.
Proof.
  intros H. exists (N_of_ascii c).
  split; [assumption | now rewrite ascii_N_embedding].
Qed.

Lemma digit_between (lo hi : N) n :
  (48 <= lo)%N -> (hi <= 57)%N -> (lo <= n <= hi)%N ->
  In (ascii_of_N n)
     (filter (fun c => (lo <=? N_of_ascii c)%N && (N_of_ascii c <=? hi)%N)
        ["0"; "1"; "2"; "3"; "4"; "5"; "6"; "7"; "8"; "9"]%char).
Proof.
  intros Hlo Hhi Hn. apply filter_In. split.
  - assert (Hc : (n = 48 \/ n = 49 \/ n = 50 \/ n = 51 \/ n = 52 \/
                  n = 53 \/ n = 54 \/ n = 55 \/ n = 56 \/ n = 57)%N) by lia.
    repeat (destruct Hc as [-> | Hc]; [simpl; tauto |]). subst; simpl; tauto.
  - rewrite N_ascii_embedding by lia.
    apply andb_true_iff. rewrite !N.leb_le. lia.
Qed.

(** The second pattern matches the sixteen prefixes [172.16.] to
    [172.31.] and nothing else. *)
Lemma lang_re_172 m :
  lang re_172 m ->
  In m [ "172.16."; "172.17."; "172.18."; "172.19.";
         "172.20."; "172.21."; "172.22."; "172.23."; "172.24.";
         "172.25."; "172.26."; "172.27."; "172.28."; "172.29.";
         "172.30."; "172.31." ].
Proof.
  cbn. intros (m1 & m2 & -> & (m3 & m4 & Hmid & -> & ->) & ->).
  destruct Hmid as [(a & b & -> & (c & -> & Hc) & ->)
                   | [(a & b & -> & (c & -> & Hc) & ->)
                     | (a & b & -> & (c & -> & Hc) & ->)]];
    apply range_cases in Hc; destruct Hc as (n & Hn & ->);
    match type of Hn with
    | (?lo <= _ <= ?hi)%N =>
        pose proof (@digit_between lo hi n ltac:(lia) ltac:(lia) Hn) as Hin
    end;
    cbn in Hin;
    repeat (destruct Hin as [<- | Hin]; [cbn; tauto |]); contradiction.
Qed.

Lemma private_range_spec h :
  private_range h = true <->
  exists p, In p private_prefixes /\ begins_with p h.
Proof.
  split.
  - unfold private_range. intros H. apply existsb_exists in H.
    destruct H as (pattern & Hin & Htest).
    apply test_spec in Htest. destruct Htest as (m & Hm & Hb).
    exists m. split; [| assumption].
    cbn in Hin.
    destruct Hin as [<- | [<- | [<- | [<- | [<- | [<- | []]]]]]];
      try (cbn in Hm; subst m; cbn; tauto).
    apply lang_re_172 in Hm. cbn in Hm |- *. tauto.
  - intros (p & Hin & rest & ->). cbn in Hin.
    repeat (destruct Hin as [<- | Hin]; [reflexivity |]). contradiction.
Qed.

Lemma blocklist_spec h :
  Js.array_includes blockedHosts h = true <-> In h blockedHosts.
Proof.
  unfold Js.array_includes. rewrite existsb_exists. split.
  - intros (x & Hin & Heq). apply String.eqb_eq in Heq. now subst.
  - intros Hin. exists h. split; [assumption | apply String.eqb_refl].
Qed.

(** The strings that [isInternalUrl] lets through. *)
Lemma isInternalUrl_spec (new_URL : string -> option URL) u :
  isInternalUrl new_URL u = false <->
  exists target,
    new_URL u = Some target /\
    ~ In (Js.toLowerCase (hostname target)) blockedHosts /\
    forall p, In p private_prefixes ->
              ~ begins_with p (Js.toLowerCase (hostname target)).
Proof.
  unfold isInternalUrl.
  destruct (new_URL u) as [target |].
  2: { split; [discriminate | intros (t & H & _); discriminate H]. }
  fold (private_range (Js.toLowerCase (hostname target))).
  set (h := Js.toLowerCase (hostname target)).
  destruct (Js.array_includes blockedHosts h) eqn:Hb.
  { apply blocklist_spec in Hb. split; [discriminate |].
    intros (t & [= <-] & Hn & _). contradiction. }
  destruct (private_range h) eqn:Hp.
  { apply private_range_spec in Hp. destruct Hp as (p & Hin & Hbeg).
    split; [discriminate |].
    intros (t & [= <-] & _ & Hn). exfalso. now apply (Hn p). }
  split; [intros _ | reflexivity].
  exists target. split; [reflexivity |]. split.
  - intros Hin. apply blocklist_spec in Hin. fold h in Hin. congruence.
  - intros p Hin Hbeg.
    assert (private_range h = true)
      by (apply private_range_spec; now exists p).
    congruence.
Qed.

(** X4.  [isInternalUrl] lets a URL through exactly when it parses, its
    lower-cased hostname is none of the five blocklist entries, and the
    hostname begins with none of the prefixes [10.], [172.16.] to
    [172.31.], [192.168.], [169.254.], [fc00:] and [fd00:].  Every other
    string, an unparsable one included, is flagged. *)
Theorem isInternalUrl_characterised (new_URL : string -> option URL) u :
  isInternalUrl new_URL u = false <->
  exists target,
    new_URL u = Some target /\
    ~ In (Js.toLowerCase (hostname target)) blockedHosts /\
    forall p, In p private_prefixes ->
              ~ begins_with p (Js.toLowerCase (hostname target)).
Proof. exact (@isInternalUrl_spec new_URL u). Qed.

(* ================================================================== *)
(** ** What the client validator accepts *)

Lemma prefix_spec p : forall s, String.prefix p s = true <-> begins_with p s.
Proof.
  unfold begins_with.
  induction p as [| a p IH]; intros s.
  - destruct s; cbn; split; eauto.
  - destruct s as [| b s]; cbn.
    + split; [discriminate | intros (rest & H); discriminate H].
    + destruct (ascii_dec a b) as [-> | Hne].
      * rewrite IH. split; intros (rest & H); exists rest; congruence.
      * split; [discriminate | intros (rest & [= H _]); congruence].
Qed.

Lemma client_blocked_spec h :
  client_blocked h = true <->
  exists b, In b Page.blockedHosts /\ (h = b \/ begins_with (b ++ ".") h).
Proof.
  unfold client_blocked, Js.startsWith. rewrite existsb_exists.
  split; intros (b & Hin & H); exists b; (split; [assumption |]).
  - apply orb_true_iff in H.
    rewrite String.eqb_eq, prefix_spec in H. exact H.
  - apply orb_true_iff. rewrite String.eqb_eq, prefix_spec. exact H.
Qed.

Lemma client_private_spec h :
  Regex.test Page.private_re h = true <->
  exists p, In p client_private_prefixes /\ begins_with p h.
Proof.
  split.
  - intros H. apply test_spec in H. destruct H as (m & Hm & Hb).
    exists m. split; [| assumption].
    change (m = "10." \/ lang re_172 m \/ m = "192.168.") in Hm.
    destruct Hm as [-> | [Hm | ->]]; try (cbn; tauto).
    apply lang_re_172 in Hm. cbn in Hm |- *. tauto.
  - intros (p & Hin & rest & ->). cbn in Hin.
    repeat (destruct Hin as [<- | Hin]; [reflexivity |]). contradiction.
Qed.

(** The strings that the client validator accepts. *)
Lemma isValidUrl_spec (new_URL : string -> option URL) u :
  Page.isValidUrl new_URL u = true <->
  exists target,
    new_URL u = Some target /\
    (forall b, In b Page.blockedHosts ->
               Js.toLowerCase (hostname target) <> b /\
               ~ begins_with (b ++ ".") (Js.toLowerCase (hostname target))) /\
    (forall p, In p client_private_prefixes ->
               ~ begins_with p (Js.toLowerCase (hostname target))) /\
    http_or_https (protocol target).
Proof.
  unfold Page.isValidUrl.
  destruct (new_URL u) as [target |].
  2: { split; [discriminate | intros (t & H & _); discriminate H]. }
  set (h := Js.toLowerCase (hostname target)).
  fold (client_blocked h).
  destruct (client_blocked h) eqn:Hb.
  { apply client_blocked_spec in Hb. destruct Hb as (b & Hin & Hb).
    split; [discriminate |].
    intros (t & [= <-] & Hn & _). exfalso.
    destruct (Hn b Hin) as [Hne Hnb]. fold h in Hne, Hnb. tauto. }
  destruct (Regex.test Page.private_re h) eqn:Hp.
  { apply client_private_spec in Hp. destruct Hp as (p & Hin & Hbeg).
    split; [discriminate |].
    intros (t & [= <-] & _ & Hn & _). exfalso. now apply (Hn p). }
  rewrite orb_true_iff, !String.eqb_eq. split.
  - intros Hproto. exists target. repeat split; try assumption.
    + intros Heq.
      assert (client_blocked h = true)
        by (apply client_blocked_spec; exists b; tauto).
      congruence.
    + intros Hbeg.
      assert (client_blocked h = true)
        by (apply client_blocked_spec; exists b; tauto).
      congruence.
    + intros p Hin Hbeg.
      assert (Regex.test Page.private_re h = true)
        by (apply client_private_spec; now exists p).
      congruence.
  - intros (t & [= <-] & _ & _ & Hproto). exact Hproto.
Qed.

(** X5.  The client validator accepts a string exactly when it parses, its
    lower-cased hostname neither equals nor begins, dot-delimited, with
    one of [localhost], [127.0.0.1], [0.0.0.0], [::1], the hostname begins
    with none of [10.], [172.16.] to [172.31.], [192.168.], and the
    protocol is http or https. *)
Theorem isValidUrl_characterised (new_URL : string -> option URL) u :
  Page.isValidUrl new_URL u = true <->
  exists target,
    new_URL u = Some target /\
    (forall b, In b Page.blockedHosts ->
               Js.toLowerCase (hostname target) <> b /\
               ~ begins_with (b ++ ".") (Js.toLowerCase (hostname target))) /\
    (forall p, In p client_private_prefixes ->
               ~ begins_with p (Js.toLowerCase (hostname target))) /\
    http_or_https (protocol target).
Proof. exact (@isValidUrl_spec new_URL u). Qed.

Lemma client_prefix_is_server_prefix p :
  In p client_private_prefixes -> In p private_prefixes.
Proof.
  intros Hin. cbn in Hin.
  repeat (destruct Hin as [<- | Hin]; [cbn; tauto |]). contradiction.
Qed.

(** X6.  On a string that parses, the two validators can disagree in two
    ways only.  When the client accepts what [isInternalUrl] flags, the
    lower-cased hostname is [0:0:0:0:0:0:0:1] or begins with [169.254.],
    [fc00:] or [fd00:].  When the client rejects an http or https URL that
    [isInternalUrl] lets through, the hostname begins with an entry of the
    client's blocklist followed by a dot. *)
Theorem validators_differ_only_on
    (new_URL : string -> option URL) u target h :
  new_URL u = Some target ->
  Js.toLowerCase (hostname target) = h ->
  (Page.isValidUrl new_URL u = true -> isInternalUrl new_URL u = true ->
   h = "0:0:0:0:0:0:0:1" \/ begins_with "169.254." h \/
   begins_with "fc00:" h \/ begins_with "fd00:" h) /\
  (Page.isValidUrl new_URL u = false -> http_or_https (protocol target) ->
   isInternalUrl new_URL u = false ->
   exists b, In b Page.blockedHosts /\ begins_with (b ++ ".") h).
Proof.
  intros Hu Hh. split.
  - intros Hvalid Hint.
    apply isValidUrl_spec in Hvalid.
    destruct Hvalid as (t & Ht & Hnb & Hnp & _).
    rewrite Hu in Ht. injection Ht as <-. rewrite Hh in Hnb, Hnp.
    unfold isInternalUrl in Hint. rewrite Hu, Hh in Hint.
    destruct (Js.array_includes blockedHosts h) eqn:Hb.
    + apply blocklist_spec in Hb. cbn in Hb.
      destruct Hb as [Hb | [Hb | [Hb | [Hb | [Hb | []]]]]];
        try (exfalso; symmetry in Hb; revert Hb;
             apply Hnb; cbn; tauto).
      now left.
    + fold (private_range h) in Hint.
      destruct (private_range h) eqn:Hp; [| discriminate].
      apply private_range_spec in Hp. destruct Hp as (p & Hin & Hbeg).
      cbn in Hin.
      repeat (destruct Hin as [<- | Hin];
              [first [ tauto
                     | exfalso; revert Hbeg; apply Hnp; cbn; tauto ] |]).
      contradiction.
  - intros Hvalid Hproto Hint.
    apply isInternalUrl_spec in Hint.
    destruct Hint as (t & Ht & Hnb & Hnp).
    rewrite Hu in Ht. injection Ht as <-. rewrite Hh in Hnb, Hnp.
    unfold Page.isValidUrl in Hvalid. rewrite Hu, Hh in Hvalid.
    fold (client_blocked h) in Hvalid.
    destruct (client_blocked h) eqn:Hb.
    + apply client_blocked_spec in Hb. destruct Hb as (b & Hin & [-> | Hb]).
      * exfalso. apply Hnb. cbn in Hin |- *. tauto.
      * now exists b.
    + destruct (Regex.test Page.private_re h) eqn:Hp.
      * apply client_private_spec in Hp. destruct Hp as (p & Hin & Hbeg).
        exfalso. apply (Hnp p); [| assumption].
        now apply client_prefix_is_server_prefix.
      * destruct Hproto as [Hproto | Hproto]; rewrite Hproto in Hvalid;
          discriminate Hvalid.
Qed.

Lemma validators_differ_only_on_witness :
  "169.254.1.1" = "0:0:0:0:0:0:0:1" \/ begins_with "169.254." "169.254.1.1" \/
  begins_with "fc00:" "169.254.1.1" \/ begins_with "fd00:" "169.254.1.1".
Proof.
  exact (proj1 (@validators_differ_only_on BasicURL.parse
                  "http://169.254.1.1/"
                  {| protocol := "http:"; hostname := "169.254.1.1" |}
                  "169.254.1.1" eq_refl eq_refl) eq_refl eq_refl).
Defined.

(* ================================================================== *)
(** ** Further properties of the client *)

Section Submission.

Variable new_URL : string -> option URL.

(** X7.  A submission that fails one of the two client-side checks changes
    nothing but the error banner: the history, the input and the loading
    flag stay as they were, the banner asks for a URL when the input is
    blank and reports an invalid or blocked URL otherwise, and nothing of
    the surroundings is consulted, so no request is made. *)
Theorem rejected_submission_changes_only_banner env s :
  Js.truthy_string (Js.trim (Page.url s)) = false \/
  Page.isValidUrl new_URL (Page.url s) = false ->
  let s' := Page.testWebhook new_URL env s in
  Page.tests s' = Page.tests s /\
  Page.isLoading s' = Page.isLoading s /\
  Page.url s' = Page.url s /\
  Page.error s' =
    (if Js.truthy_string (Js.trim (Page.url s))
     then "Invalid URL or blocked for security reasons (no localhost/private IPs)"
     else "Please enter a URL") /\
  forall env', Page.testWebhook new_URL env' s = s'.
Proof.
  intros H. unfold Page.testWebhook.
  change (Page.url (Page.setError "" s)) with (Page.url s).
  destruct (Js.truthy_string (Js.trim (Page.url s))) eqn:Hblank; cbn.
  - destruct H as [H | H]; [discriminate H |]. rewrite H. cbn.
    repeat split.
  - repeat split.
Qed.

(** X8.  After a submission that passes both checks the loading flag is
    off and the banner is empty, whatever the round trip came to; the
    input is emptied when a reply was read and keeps the URL when the
    round trip threw. *)
Theorem attempted_submission_settles env s :
  attempted new_URL (Page.url s) ->
  let s' := Page.testWebhook new_URL env s in
  Page.isLoading s' = false /\
  Page.error s' = "" /\
  Page.url s' =
    match Page.round_trip env with
    | Page.Replied _ => ""
    | Page.Failed _ => Page.url s
    end /\
  Page.tests s' = firstn 20 (recorded env (Page.url s) :: Page.tests s).
Proof.
  intros [Hblank Hvalid]. unfold Page.testWebhook, recorded.
  change (Page.url (Page.setError "" s)) with (Page.url s).
  rewrite Hblank, Hvalid.
  destruct (Page.round_trip env); repeat split.
Qed.

End Submission.

Lemma rejected_submission_changes_only_banner_witness :
  let s := Page.setUrl (no_break_space ++ " ") mounted in
  let s' := Page.testWebhook BasicURL.parse (sample_env 0) s in
  Page.tests s' = Page.tests s /\
  Page.isLoading s' = Page.isLoading s /\
  Page.url s' = Page.url s /\
  Page.error s' = "Please enter a URL" /\
  forall env', Page.testWebhook BasicURL.parse env' s = s'.
Proof.
  apply (@rejected_submission_changes_only_banner BasicURL.parse
           (sample_env 0) (Page.setUrl (no_break_space ++ " ") mounted)).
  left. reflexivity.
Defined.

Example blocked_submission_banner :
  Page.error
    (Page.testWebhook BasicURL.parse (sample_env 0)
       (Page.setUrl "http://localhost./hook" mounted)) =
  "Invalid URL or blocked for security reasons (no localhost/private IPs)".
Proof. reflexivity. Qed.

Example trim_samples :
  map Js.trim
    [ "  a b  "; no_break_space; no_break_space ++ " x " ++ no_break_space;
      ""; " http://example.com/ " ] =
  [ "a b"; ""; "x"; ""; "http://example.com/" ].
Proof. reflexivity. Qed.

Lemma attempted_submission_settles_witness :
  let s := Page.setUrl example_probe mounted in
  let s' := Page.testWebhook BasicURL.parse (sample_env 0) s in
  Page.isLoading s' = false /\
  Page.error s' = "" /\
  Page.url s' =
    match Page.round_trip (sample_env 0) with
    | Page.Replied _ => ""
    | Page.Failed _ => Page.url s
    end /\
  Page.tests s' =
    firstn 20 (recorded (sample_env 0) (Page.url s) :: Page.tests s).
Proof.
  apply (@attempted_submission_settles BasicURL.parse (sample_env 0)
           (Page.setUrl example_probe mounted)).
  exact sample_attempted.
Defined.

(* ================================================================== *)
(** ** The client and the handler together *)

Section EndToEnd.

Variable new_URL : string -> option URL.

Lemma attempted_reaches_probe u :
  attempted new_URL u -> isInternalUrl new_URL u = false ->
  reaches_probe new_URL (post_of u) u.
Proof.
  intros [Hblank Hvalid] Hint.
  apply isValidUrl_spec in Hvalid.
  destruct Hvalid as (target & Hu & _ & _ & Hproto).
  split; [| split].
  - exists (JObj [("url", JStr u)]). split; reflexivity.
  - intros ->. discriminate Hblank.
  - now exists target.
Qed.

(** X9.  The entry that the client records for an attempted probe mirrors
    the handler's reply: it carries the submitted URL and the reply's
    error; for a reply that is not a success it has no status code, a
    non-empty error and the client's own measurement of the round trip as
    latency; for a success it has the reported status code and latency,
    provided neither is zero. *)
Theorem history_entry_mirrors_reply env u w s :
  attempted new_URL u ->
  quiescent w ->
  Page.round_trip env = round_trip_to new_URL u w ->
  exists resp w' e rest,
    POST new_URL (post_of u) w = (Returned resp, w') /\
    Page.tests (submit new_URL env u s) = e :: rest /\
    Page.Entry.url e = u /\
    Page.Entry.error e = error (body resp) /\
    (success (body resp) <> Some true ->
     Page.Entry.statusCode e = None /\
     Page.Entry.error e <> None /\
     Page.Entry.latency e =
       Some (Page.Math_round (Page.perf_end env - Page.perf_start env))) /\
    (success (body resp) = Some true ->
     forall code ms,
       statusCode (body resp) = Some code -> latency (body resp) = Some ms ->
       code <> 0 -> ms <> 0 ->
       Page.Entry.statusCode e = Some code /\
       Page.Entry.latency e = Some ms /\
       Page.Entry.error e = None).
Proof.
  intros Hatt Hq Hrt.
  destruct (POST_well_shaped new_URL (post_of u) Hq)
    as (resp & w' & Hrun & _ & Hok & Hbad).
  unfold round_trip_to in Hrt. rewrite Hrun in Hrt. cbn in Hrt.
  exists resp, w', (recorded env u), (firstn 19 (Page.tests s)).
  split; [exact Hrun |].
  split; [now rewrite (submit_tests env s Hatt) |].
  unfold recorded. rewrite Hrt. cbn.
  split; [reflexivity |]. split; [reflexivity |]. split.
  - intros Hs. destruct (Hbad Hs) as (He & Hc & Hl & _).
    rewrite Hc, Hl. cbn. now repeat split.
  - intros Hs code ms Hc Hl Hcode Hms.
    destruct (Hok Hs) as (_ & _ & _ & He).
    rewrite Hc, Hl, He. cbn.
    destruct (Z.eqb_spec code 0); [contradiction |].
    destruct (Z.eqb_spec ms 0); [contradiction |].
    now repeat split.
Qed.

(** X10.  End to end, for a URL that both validators accept: a target
    that answers with a non-zero status after a non-zero time below ten
    seconds is recorded with that status, that time as latency and no
    error; a target that never answers is recorded with no status, the
    error "Request timeout (>10s)" and the client's own measurement as
    latency. *)
Theorem probe_recorded_end_to_end env u w s :
  attempted new_URL u ->
  isInternalUrl new_URL u = false ->
  quiescent w ->
  Page.round_trip env = round_trip_to new_URL u w ->
  (forall elapsed code,
     network w u = Settles elapsed (Resolves code) ->
     elapsed < 10000 -> elapsed <> 0 -> code <> 0 ->
     hd_error (Page.tests (submit new_URL env u s)) =
     Some {| Page.Entry.id := Js.number_toString (Page.now_id env);
             Page.Entry.url := u;
             Page.Entry.statusCode := Some code;
             Page.Entry.latency := Some elapsed;
             Page.Entry.timestamp := Page.now_stamp env;
             Page.Entry.error := None |}) /\
  (network w u = Hangs ->
   hd_error (Page.tests (submit new_URL env u s)) =
   Some {| Page.Entry.id := Js.number_toString (Page.now_id env);
           Page.Entry.url := u;
           Page.Entry.statusCode := None;
           Page.Entry.latency :=
             Some (Page.Math_round
                     (Page.perf_end env - Page.perf_start env));
           Page.Entry.timestamp := Page.now_stamp env;
           Page.Entry.error := Some "Request timeout (>10s)" |}).
Proof.
  intros Hatt Hint Hq Hrt.
  pose proof (attempted_reaches_probe Hatt Hint) as Hreach.
  rewrite (submit_tests env s Hatt). cbn [firstn hd_error].
  unfold recorded, round_trip_to in *. split.
  - intros elapsed code Hnet Hlt Hel Hcode.
    rewrite (POST_settles Hreach Hq Hnet Hlt) in Hrt. rewrite Hrt. cbn.
    destruct (Z.eqb_spec code 0); [contradiction |].
    replace (clock w + elapsed - clock w) with elapsed by lia.
    destruct (Z.eqb_spec elapsed 0); [contradiction |]. reflexivity.
  - intros Hnet.
    rewrite (POST_times_out Hreach Hq (or_introl Hnet)) in Hrt.
    rewrite Hrt. reflexivity.
Qed.

End EndToEnd.

Lemma history_entry_mirrors_reply_witness :
  let w := world_of (Settles 35 (Resolves 404)) in
  let env :=
    {| Page.perf_start := 0; Page.perf_end := 123 # 2;
       Page.now_id := 1700000000050; Page.now_stamp := 1700000000050;
       Page.round_trip := round_trip_to BasicURL.parse example_probe w |} in
  exists resp w' e rest,
    POST BasicURL.parse (post_of example_probe) w = (Returned resp, w') /\
    Page.tests (submit BasicURL.parse env example_probe mounted) = e :: rest /\
    Page.Entry.url e = example_probe /\
    Page.Entry.error e = error (body resp) /\
    (success (body resp) <> Some true ->
     Page.Entry.statusCode e = None /\
     Page.Entry.error e <> None /\
     Page.Entry.latency e =
       Some (Page.Math_round (Page.perf_end env - Page.perf_start env))) /\
    (success (body resp) = Some true ->
     forall code ms,
       statusCode (body resp) = Some code -> latency (body resp) = Some ms ->
       code <> 0 -> ms <> 0 ->
       Page.Entry.statusCode e = Some code /\
       Page.Entry.latency e = Some ms /\
       Page.Entry.error e = None).
Proof.
  intros w env.
  apply (@history_entry_mirrors_reply BasicURL.parse env example_probe w
           mounted).
  - exact sample_attempted.
  - apply world_of_quiescent.
  - reflexivity.
Defined.

Lemma probe_recorded_end_to_end_witness :
  let w := world_of (Settles 35 (Resolves 404)) in
  let env :=
    {| Page.perf_start := 0; Page.perf_end := 123 # 2;
       Page.now_id := 1700000000050; Page.now_stamp := 1700000000050;
       Page.round_trip := round_trip_to BasicURL.parse example_probe w |} in
  hd_error (Page.tests (submit BasicURL.parse env example_probe mounted)) =
  Some {| Page.Entry.id := "1700000000050";
          Page.Entry.url := example_probe;
          Page.Entry.statusCode := Some 404;
          Page.Entry.latency := Some 35;
          Page.Entry.timestamp := 1700000000050;
          Page.Entry.error := None |}.
Proof.
  intros w env.
  refine (proj1 (@probe_recorded_end_to_end BasicURL.parse env example_probe
                   w mounted sample_attempted eq_refl
                   (world_of_quiescent _) eq_refl)
            35 404 eq_refl _ _ _); lia.
Defined.

(* ================================================================== *)
(** ** The persisted history and the display *)

Section Persisted.

Variable new_URL : string -> option URL.
Variable JSON_stringify : list Page.Entry.WebhookTest -> string.
Variable JSON_parse : string -> list Page.Entry.WebhookTest.

(** X11.  Clearing the history empties the list and removes the stored
    item, and the save effect that runs on the emptied list does not
    bring the item back, so that a component mounted afterwards starts
    with an empty history; the input and the banner are left alone. *)
Theorem clear_history_empties_both s store :
  let s' := fst (Page.clearHistory s store) in
  let store' := Page.save_effect JSON_stringify s'
                  (snd (Page.clearHistory s store)) in
  Page.tests s' = [] /\
  store' = None /\
  Page.tests (Page.load_effect JSON_parse store' mounted) = [] /\
  Page.url s' = Page.url s /\
  Page.error s' = Page.error s.
Proof. repeat split. Qed.

(** X12.  After an attempted probe the save effect stores the new history,
    at most twenty entries with the new one first, whatever was stored
    before; on an empty history the save effect leaves the stored item
    untouched, so that mounting does not erase what the load effect is
    about to restore. *)
Theorem attempted_probe_is_persisted env u s store :
  attempted new_URL u ->
  Page.save_effect JSON_stringify (submit new_URL env u s) store =
    Some (JSON_stringify (recorded env u :: firstn 19 (Page.tests s))) /\
  Page.save_effect JSON_stringify mounted store = store.
Proof.
  intros Hatt. split; [| reflexivity].
  unfold Page.save_effect. rewrite (submit_tests env s Hatt). reflexivity.
Qed.

End Persisted.

Lemma attempted_probe_is_persisted_witness :
  Page.save_effect (fun l => Js.number_toString (Z.of_nat (List.length l)))
    (submit BasicURL.parse (sample_env 0) example_probe mounted)
    (Some "stale") =
    Some "1" /\
  Page.save_effect (fun l => Js.number_toString (Z.of_nat (List.length l)))
    mounted (Some "stale") = Some "stale".
Proof.
  apply (@attempted_probe_is_persisted BasicURL.parse
           (fun l => Js.number_toString (Z.of_nat (List.length l)))
           (sample_env 0) example_probe mounted (Some "stale")).
  exact sample_attempted.
Defined.

(** X13.  The indicators of success agree: the footer counts exactly the
    entries that are coloured green; an entry gets the check icon exactly
    when it is green and has no error text; and an entry with an error
    text gets the cross icon and the status text "ERROR" whatever its
    status code. *)
Theorem success_indicators_agree (tests : list Page.Entry.WebhookTest) :
  Page.successful tests =
    List.length
      (filter (fun t => String.eqb
                          (Page.getStatusColor (Page.Entry.statusCode t))
                          "text-green-200") tests) /\
  (forall t,
     Page.getStatusIcon (Page.Entry.statusCode t) (Page.Entry.error t) =
       Page.CheckCircle <->
     Page.truthy_text (Page.Entry.error t) = false /\
     Page.getStatusColor (Page.Entry.statusCode t) = "text-green-200") /\
  (forall t,
     Page.truthy_text (Page.Entry.error t) = true ->
     Page.getStatusIcon (Page.Entry.statusCode t) (Page.Entry.error t) =
       Page.XCircle /\
     Page.status_text t = "ERROR").
Proof.
  split; [| split].
  - unfold Page.successful. f_equal. apply filter_ext. intros t.
    unfold Page.getStatusColor.
    destruct (Page.truthy_number (Page.Entry.statusCode t)); cbn;
      [| reflexivity].
    destruct ((200 <=? Page.number_of (Page.Entry.statusCode t)) &&
              (Page.number_of (Page.Entry.statusCode t) <? 300));
      [reflexivity |].
    now destruct ((400 <=? Page.number_of (Page.Entry.statusCode t)) &&
                  (Page.number_of (Page.Entry.statusCode t) <? 600)).
  - intros t. unfold Page.getStatusIcon, Page.getStatusColor.
    destruct (Page.truthy_text (Page.Entry.error t));
      [split; [discriminate | intros [H _]; discriminate H] |].
    destruct (Page.truthy_number (Page.Entry.statusCode t)); cbn;
      [| split; [discriminate | intros [_ H]; discriminate H]].
    destruct ((200 <=? Page.number_of (Page.Entry.statusCode t)) &&
              (Page.number_of (Page.Entry.statusCode t) <? 300));
      [tauto |].
    destruct ((400 <=? Page.number_of (Page.Entry.statusCode t)) &&
              (Page.number_of (Page.Entry.statusCode t) <? 600));
      (split; [discriminate | intros [_ H]; discriminate H]).
  - intros t Herr. unfold Page.getStatusIcon, Page.status_text.
    now rewrite Herr.
Qed.

(* ================================================================== *)
(** ** The average latency *)

Lemma latency_sum_bounds lo hi (l : list Page.Entry.WebhookTest) :
  Forall (fun t => Page.truthy_number (Page.Entry.latency t) = true /\
                   lo <= Page.number_of (Page.Entry.latency t) <= hi) l ->
  forall acc,
    acc + lo * Z.of_nat (List.length l) <=
      fold_left (fun acc t => acc + Page.or_else (Page.Entry.latency t) 0)
        l acc <=
    acc + hi * Z.of_nat (List.length l).
Proof.
  induction 1 as [| t l [Ht Hb] _ IH]; intros acc.
  - cbn. lia.
  - cbn [fold_left List.length].
    assert (Hv : Page.or_else (Page.Entry.latency t) 0 =
                 Page.number_of (Page.Entry.latency t)).
    { destruct (Page.Entry.latency t) as [n |]; [| discriminate Ht].
      cbn in Ht |- *. now destruct (n =? 0). }
    specialize (IH (acc + Page.or_else (Page.Entry.latency t) 0)).
    rewrite Hv in *. lia.
Qed.

Lemma round_between (lo hi : Z) (q : Q) :
  (inject_Z lo <= q)%Q -> (q <= inject_Z hi)%Q ->
  lo <= Page.Math_round q <= hi.
Proof.
  intros Hlo Hhi. unfold Page.Math_round. split.
  - rewrite <- (Qfloor_Z lo). apply Qfloor_resp_le. lra.
  - pose proof (Qfloor_le (q + (1 # 2))) as Hf.
    destruct (Z_le_gt_dec (Qfloor (q + (1 # 2))) hi) as [? | Hgt];
      [assumption | exfalso].
    assert (Hz : hi + 1 <= Qfloor (q + (1 # 2))) by lia.
    rewrite Zle_Qle, inject_Z_plus in Hz.
    change (inject_Z 1) with 1%Q in Hz. lra.
Qed.

(** X14.  The average latency of the footer is taken over the entries with
    a non-zero latency only: when there is none it is 0, and otherwise it
    lies between any two bounds that hold for the latencies of all those
    entries. *)
Theorem average_latency_bounded
    (tests : list Page.Entry.WebhookTest) (lo hi : Z) :
  (forall t, In t tests ->
             Page.truthy_number (Page.Entry.latency t) = true ->
             lo <= Page.number_of (Page.Entry.latency t) <= hi) ->
  ((forall t, In t tests ->
              Page.truthy_number (Page.Entry.latency t) = false) ->
   Page.average_latency tests = 0) /\
  ((exists t, In t tests /\
              Page.truthy_number (Page.Entry.latency t) = true) ->
   lo <= Page.average_latency tests <= hi).
Proof.
  intros Hb. unfold Page.average_latency, Page.latency_total.
  set (timed := filter
                  (fun t => Page.truthy_number (Page.Entry.latency t)) tests).
  split.
  - intros Hnone.
    assert (Hnil : timed = []).
    { unfold timed. clear Hb. induction tests as [| t l IH]; [reflexivity |].
      cbn. rewrite (Hnone t (or_introl eq_refl)).
      apply IH. intros t' Hin. apply Hnone. now right. }
    now rewrite Hnil.
  - intros (t0 & Hin0 & Ht0).
    assert (Hall : Forall
              (fun t => Page.truthy_number (Page.Entry.latency t) = true /\
                        lo <= Page.number_of (Page.Entry.latency t) <= hi)
              timed).
    { apply Forall_forall. intros t Hin. apply filter_In in Hin.
      destruct Hin as [Hin Ht]. split; [assumption | now apply Hb]. }
    assert (Hpos : (0 < List.length timed)%nat).
    { assert (In t0 timed) by (apply filter_In; now split).
      destruct timed; [contradiction | cbn; lia]. }
    pose proof (latency_sum_bounds Hall 0) as Hsum. cbn [Z.add] in Hsum.
    destruct (Nat.ltb_spec 0 (List.length timed)) as [_ | ?]; [| lia].
    set (n := Z.of_nat (List.length timed)) in *.
    assert (Hn : 0 < n) by (unfold n; lia).
    assert (HnQ : (0 < inject_Z n)%Q)
      by (rewrite Zlt_Qlt in Hn; exact Hn).
    apply round_between.
    + apply Qle_shift_div_l; [exact HnQ |].
      rewrite <- inject_Z_mult, <- Zle_Qle. lia.
    + apply Qle_shift_div_r; [exact HnQ |].
      rewrite <- inject_Z_mult, <- Zle_Qle. lia.
Qed.

Lemma average_latency_bounded_witness :
  let tests :=
    Page.tests (run_probes BasicURL.parse (sample_probes 0 3) mounted) in
  ((forall t, In t tests ->
              Page.truthy_number (Page.Entry.latency t) = false) ->
   Page.average_latency tests = 0) /\
  ((exists t, In t tests /\
              Page.truthy_number (Page.Entry.latency t) = true) ->
   35 <= Page.average_latency tests <= 35).
Proof.
  apply (@average_latency_bounded
           (Page.tests (run_probes BasicURL.parse (sample_probes 0 3) mounted))
           35 35).
  intros t Hin _. vm_compute in Hin.
  repeat (destruct Hin as [<- | Hin]; [vm_compute; split; discriminate |]).
  contradiction.
Defined.

(* ================================================================== *)
(** ** The status of the response and the call of [fetch] *)

Lemma fetch_called_at_most_once_witness :
  let w := world_of Hangs in
  exists resp w',
    POST BasicURL.parse (post_of example_probe) w = (Returned resp, w') /\
    timers w' = [] /\
    (outbound (trace w') = outbound (trace w) \/
     exists u,
       reaches_probe BasicURL.parse (post_of example_probe) u /\
       outbound (trace w') =
         (outbound (trace w) ++
          [ {| out_url := u;
               out_method := "POST";
               out_headers := [ ("Content-Type", "application/json");
                                ("User-Agent", "WebhookTester/1.0") ];
               out_body := {| event := "test_ping"; timestamp := clock w;
                              source := "webhook_tester";
                              test_id := random_token w |} |} ])%list).
Proof.
  apply (@fetch_called_at_most_once BasicURL.parse
           (post_of example_probe) (world_of Hangs)).
  apply world_of_quiescent.
Defined.

(** X15.  The HTTP status of the response tells whether the handler got
    as far as calling [fetch]: it answers with status 200 exactly when it
    called [fetch], whatever became of that call, and with 400, 403 or 500
    exactly when it did not call [fetch], so that nothing was sent. *)
Theorem status_200_iff_fetch_called
    (new_URL : string -> option URL) request w :
  quiescent w ->
  exists resp w',
    POST new_URL request w = (Returned resp, w') /\
    (status resp = 200 <->
     exists u, outbound (trace w') =
               (outbound (trace w) ++ [probe_request u w])%list) /\
    (status resp <> 200 <-> outbound (trace w') = outbound (trace w)).
Proof.
  intros Hq.
  assert (Hgrow : forall (l : list OutboundRequest) x,
             (l ++ [x])%list <> l).
  { intros l x H. apply (f_equal (@List.length _)) in H.
    rewrite length_app in H. cbn in H. lia. }
  destruct (POST_classified new_URL request Hq)
    as [[_ Hrun] | [(v & k & _ & _ & Hrun)
                   | (u & resp & w' & _ & Hrun & Hst & Hout)]];
    rewrite Hrun; eexists; eexists; (split; [reflexivity |]).
  - assert (Hsame : outbound (trace (log EvConsoleError w)) =
                    outbound (trace w)).
    { unfold outbound, log; cbn. rewrite flat_map_app; cbn.
      now rewrite app_nil_r. }
    rewrite Hsame. cbn. split; split.
    + discriminate.
    + intros (u & H). symmetry in H. now apply Hgrow in H.
    + reflexivity.
    + intros _. discriminate.
  - split; split.
    + intros H. destruct k; discriminate H.
    + intros (u & H). symmetry in H. now apply Hgrow in H.
    + reflexivity.
    + intros _. destruct k; discriminate.
  - rewrite Hst, Hout. split; split.
    + intros _. now exists u.
    + reflexivity.
    + intros H. now contradiction H.
    + intros H. now apply Hgrow in H.
Qed.

Lemma status_200_iff_fetch_called_witness :
  let w := world_of (Settles 35 (Resolves 404)) in
  exists resp w',
    POST BasicURL.parse (post_of "http://10.0.0.1/") w = (Returned resp, w') /\
    (status resp = 200 <->
     exists u, outbound (trace w') =
               (outbound (trace w) ++ [probe_request u w])%list) /\
    (status resp <> 200 <-> outbound (trace w') = outbound (trace w)).
Proof.
  apply (@status_200_iff_fetch_called BasicURL.parse
           (post_of "http://10.0.0.1/")
           (world_of (Settles 35 (Resolves 404)))).
  apply world_of_quiescent.
Defined.
